(** * The serverless request gateway of the hospital-management API

    A shallow embedding of the Express application assembled in the gateway
    module (the [app] object exported for the serverless host) and of its
    process-wide connection cache [connectToDatabase].

    The gateway file is mostly composition of third-party middleware
    ([cors], [helmet], [express.json], [express.urlencoded],
    [express-mongo-sanitize], [xss-clean], [hpp], [compression]) around two
    pieces of code of its own: the connection cache and the connection-gate
    middleware, followed by the health route, the route table, the 404
    responder and the error sink.  The embedding keeps that shape:

    - the process state touched by the file ([cachedDb], mongoose's
      [readyState], the console and the calls made on mongoose) is a record
      [World], threaded through a small state-and-exception monad [M];
    - what the host decides (the environment variables, whether the store
      accepts a connection, the clock, the route groups and the error
      handler imported from the server folder) is a record [Host];
    - Express's dispatch is a fixpoint over the list of registered layers,
      in registration order, with Express's rule that a pending error skips
      every layer that is not an error handler;
    - response headers are not modelled: a response is the status and the
      body a handler passes to [res.status(...).json(...)] or ends the
      response with (for a HEAD request Node sends no body on the wire);
    - a message carries its request target as [parseurl] reads it: the
      target as received, its path and its query string.  Express routes on
      that path and answers a target without one with its default 404
      before any layer runs, so that the model starts from a target that
      has a path;
    - the query parser is [qs] on parameters written plainly; where a
      property depends on it, the bracket notation of [qs] is excluded by a
      hypothesis. *)

From Stdlib Require Import ZArith List Ascii String Bool Lia.
From stdpp Require Import base option gmap strings list.

Local Open Scope string_scope.
Local Open Scope list_scope.
Local Open Scope Z_scope.

Set Warnings "-register-all".

(** ** JavaScript values *)

(** The values that live in [req.query], [req.body] and in the objects handed
    to [res.json]. *)
Inductive Value :=
| VUndefined
| VNull
| VBool (b : bool)
| VNum (n : Z)
| VStr (s : string)
| VArr (items : list Value)
| VObj (fields : list (string * Value)).

(** Property read [o[k]]: the first binding of [k]. *)
Fixpoint field (k : string) (fs : list (string * Value)) : option Value :=
  match fs with
  | [] => None
  | (k', v) :: rest => if String.eqb k k' then Some v else field k rest
  end.

Definition get (k : string) (v : Value) : option Value :=
  match v with
  | VObj fs => field k fs
  | _ => None
  end.

(** [JSON.stringify] followed by a parse, as far as the shape of the value is
    concerned: a property whose value is [undefined] is left out, and an
    [undefined] array element becomes [null]. *)
Fixpoint jsonify (v : Value) : Value :=
  match v with
  | VArr items =>
      VArr (map (fun x => match x with VUndefined => VNull | _ => jsonify x end) items)
  | VObj fs =>
      VObj ((fix go (fs : list (string * Value)) : list (string * Value) :=
               match fs with
               | [] => []
               | (k, VUndefined) :: rest => go rest
               | (k, x) :: rest => (k, jsonify x) :: go rest
               end) fs)
  | _ => v
  end.

(** A thrown JavaScript error: its [message] and, for the HTTP errors raised
    by the body parsers, its [status]. *)
Record Error := { message : string; status : option Z }.

(** ** The process state *)

(** The options object passed to [mongoose.connect]. *)
Record ConnectOptions := {
  useNewUrlParser : bool;
  useUnifiedTopology : bool;
  maxPoolSize : Z;
  serverSelectionTimeoutMS : Z;
  socketTimeoutMS : Z
}.

(** What [mongoose.connect] resolves to: an opaque session reference. *)
Record ConnectionHandle := { session : nat }.

(** The stages of the pipeline, in the order the gateway registers them. *)
Inductive Stage :=
| Cors | Preflight | Helmet | JsonParser | UrlencodedParser
| MongoSanitize | XssClean | Hpp | Compression
| ConnectionGate | Health | RouteGroup (prefix : string) | NotFound | ErrorSink.

(** What the gateway does that can be observed from outside a request. *)
Inductive Event :=
| ConsoleLog (msg : string)
| ConsoleError (msg : string) (e : Error)
| MongooseSet (key : string) (v : bool)
| MongooseConnect (uri : option string) (opts : ConnectOptions)
| Enter (s : Stage).

(** [cachedDb] is the module-level variable of the gateway; [readyState] is
    [mongoose.connection.readyState] (0 disconnected, 1 connected,
    2 connecting, 3 disconnecting); [events] is the history, oldest first. *)
Record World := {
  cachedDb : option ConnectionHandle;
  readyState : Z;
  events : list Event
}.

Definition emit (e : Event) (w : World) : World :=
  {| cachedDb := cachedDb w; readyState := readyState w; events := events w ++ [e] |}.

Definition is_connect (e : Event) : bool :=
  match e with MongooseConnect _ _ => true | _ => false end.

(** How many times the underlying connect primitive has been called. *)
Definition connectCalls (w : World) : nat :=
  length (List.filter is_connect (events w)).

(** ** Requests and responses *)

Inductive Method := GET | HEAD | POST | PUT | DELETE | PATCH | OPTIONS | TRACE.

Definition Method_eqb (a b : Method) : bool :=
  match a, b with
  | GET, GET | HEAD, HEAD | POST, POST | PUT, PUT | DELETE, DELETE
  | PATCH, PATCH | OPTIONS, OPTIONS | TRACE, TRACE => true
  | _, _ => false
  end.

#[global] Instance Method_eq_dec : EqDecision Method.
Proof. solve_decision. Defined.

Inductive MediaType := ApplicationJson | FormUrlencoded | OtherMedia.

(** What decoding a request entity yields. *)
Inductive Decoding :=
| Decodes (v : Value)
| Malformed (why : string).

(** A request entity as the body parsers see it: its media type, its length
    in bytes and the outcome of decoding it. *)
Record Entity := {
  mediaType : MediaType;
  contentLength : Z;
  decoding : Decoding
}.

(** Node's [Url] object, as far as Express reads it: the request target as
    received ([req.url]), its path, and its query string when it has one
    (the [query] of Node, without the question mark). *)
Record Url := {
  href : string;
  pathname : string;
  querystring : option string
}.

(** The HTTP request as it arrives, with its target as [parseurl] reads
    it. *)
Record IncomingMessage := {
  method : Method;
  url : Url;
  entity : option Entity
}.

(** Express's [req]: the message, and the properties Express and the
    pipeline assign to it. *)
Record Request := {
  incoming : IncomingMessage;
  originalUrl : string;
  query : Value;
  queryPolluted : Value;
  body : Value;
  body_parsed : bool;
  bodyPolluted : Value
}.

Inductive Body :=
| EmptyBody
| JsonBody (v : Value)
| DefaultPage.

Record Response := { statusCode : Z; responseBody : Body }.

(** [res.status(c).json(v)] *)
Definition json (c : Z) (v : Value) : Response :=
  {| statusCode := c; responseBody := JsonBody (jsonify v) |}.

(** How a layer hands over: [next()] or [next(err)], with the request object
    as the layer leaves it, or a finished response. *)
Inductive Outcome :=
| Next (req : Request)
| NextErr (err : Error) (req : Request)
| Respond (res : Response).

(** ** Strings, request targets and query strings *)

Definition lower_ascii (c : ascii) : ascii :=
  let n := N_of_ascii c in
  if ((65 <=? n) && (n <=? 90))%N then ascii_of_N (n + 32) else c.

Fixpoint lower (s : string) : string :=
  match s with
  | EmptyString => EmptyString
  | String c rest => String (lower_ascii c) (lower rest)
  end.

(** [drop_prefix p s] is what is left of [s] behind [p], when [s] starts
    with [p]. *)
Fixpoint drop_prefix (p s : string) : option string :=
  match p, s with
  | EmptyString, _ => Some s
  | String a p', String b s' => if Ascii.eqb a b then drop_prefix p' s' else None
  | String _ _, EmptyString => None
  end.

(** [cut c s] splits [s] at the first [c]: what is before it and, when there
    is one, what is behind it. *)
Fixpoint cut (c : ascii) (s : string) : string * option string :=
  match s with
  | EmptyString => (EmptyString, None)
  | String a rest =>
      if Ascii.eqb a c then (EmptyString, Some rest)
      else let '(before, behind) := cut c rest in (String a before, behind)
  end.

Fixpoint split (c : ascii) (s : string) : list string :=
  match s with
  | EmptyString => [EmptyString]
  | String a rest =>
      if Ascii.eqb a c then EmptyString :: split c rest
      else match split c rest with
           | [] => [String a EmptyString]
           | piece :: pieces => String a piece :: pieces
           end
  end.

Fixpoint any (p : ascii -> bool) (s : string) : bool :=
  match s with
  | EmptyString => false
  | String c rest => p c || any p rest
  end.

Definition has (c : ascii) (s : string) : bool := any (Ascii.eqb c) s.

(** *** parseurl *)

(** A target in origin form: the path is what stands in front of the first
    question mark, the query string what stands behind it. *)
Definition origin (target : string) : Url :=
  {| href := target;
     pathname := fst (cut "?" target);
     querystring := snd (cut "?" target) |}.

(** The characters that make [parseurl] hand the target to the legacy
    parser of Node: white space and the number sign. *)
Definition for_legacy (c : ascii) : bool :=
  let n := N_of_ascii c in
  (N.eqb n 9 || N.eqb n 10 || N.eqb n 12 || N.eqb n 13
   || N.eqb n 32 || N.eqb n 35 || N.eqb n 160)%bool.

(** [parseurl] reads a target itself when it starts with a slash and, from
    its second character on, holds none of those characters. *)
Definition fast (target : string) : bool :=
  match target with
  | String c rest => Ascii.eqb c "/" && negb (any for_legacy rest)
  | EmptyString => false
  end.

Definition scheme_char (c : ascii) : bool :=
  let n := N_of_ascii (lower_ascii c) in
  ((97 <=? n) && (n <=? 122) || (48 <=? n) && (n <=? 57)
   || N.eqb n 43 || N.eqb n 45 || N.eqb n 46)%N%bool.

Definition digit_char (c : ascii) : bool :=
  let n := N_of_ascii c in ((48 <=? n) && (n <=? 57))%N.

Definition host_char (c : ascii) : bool :=
  let n := N_of_ascii (lower_ascii c) in
  ((97 <=? n) && (n <=? 122) || (48 <=? n) && (n <=? 57)
   || N.eqb n 45 || N.eqb n 46)%N%bool.

Fixpoint all (p : ascii -> bool) (s : string) : bool :=
  match s with
  | EmptyString => true
  | String c rest => p c && all p rest
  end.

(** A host the model reads: a name of letters, digits, hyphens and dots,
    of 255 characters at most, and a port when there is one. *)
Definition plain_host (host : string) : bool :=
  let '(name, port) := cut ":" host in
  negb (String.eqb name EmptyString) && all host_char name
  && (String.length name <=? 255)%nat
  && match port with
     | Some digits => all digit_char digits
     | None => true
     end.

(** The schemes behind which Node puts the path [/] when the target has a
    host and no path. *)
Definition slashedProtocol (scheme : string) : bool :=
  existsb (String.eqb (lower scheme))
          ["http"; "https"; "ftp"; "gopher"; "file"; "ws"; "wss"].

(** The characters the legacy parser trims, converts, escapes or reads as
    user information: white space and control characters, what is not
    ASCII, and the quotes, the backslash, the at sign, the angle brackets,
    the circumflex, the backquote, the braces and the bar. *)
Definition intricate (c : ascii) : bool :=
  let n := N_of_ascii c in
  ((n <? 33) || (126 <? n))%N
  || existsb (N.eqb n) [34; 39; 60; 62; 64; 92; 94; 96; 123; 124; 125]%N.

(** Node's [url.parse], for the targets [parseurl] does not read itself, as
    far as the path and the query string go.  Modelled are a fragment,
    which is cut off, and the absolute form [scheme://host/path?query];
    the result is [None] where Node finds no path and for the targets this
    model does not read (the characters above, a scheme without the two
    slashes, a host that is not a plain name with or without a port). *)
Definition url_parse (target : string) : option Url :=
  if any intricate target then None
  else
    let '(front, query) := cut "?" (fst (cut "#" target)) in
    let found p :=
      if String.eqb p EmptyString then None
      else Some {| href := target; pathname := p; querystring := query |} in
    match cut ":" front with
    | (scheme, Some behind) =>
        if negb (String.eqb scheme EmptyString) && all scheme_char scheme then
          match behind with
          | String "/" (String "/" rest) =>
              let '(host, p) := cut "/" rest in
              if negb (plain_host host) || String.eqb (lower scheme) "javascript"
              then None
              else match p with
                   | Some p => found (String "/" p)
                   | None => if slashedProtocol scheme then found "/" else None
                   end
          | _ => None
          end
        else found front
    | (_, None) => found front
    end.

Definition parseurl (target : string) : option Url :=
  if fast target then Some (origin target) else url_parse target.

(** *** decodeURIComponent *)

Definition hex_digit (c : ascii) : option N :=
  let n := N_of_ascii c in
  if ((48 <=? n) && (n <=? 57))%N then Some (n - 48)%N
  else if ((65 <=? n) && (n <=? 70))%N then Some (n - 55)%N
  else if ((97 <=? n) && (n <=? 102))%N then Some (n - 87)%N
  else None.

(** The ranges of the bytes that must follow the byte [b] when it leads a
    UTF-8 sequence; [None] when [b] cannot lead one. *)
Definition continuation (b : N) : option (list (N * N)) :=
  (if b <? 128 then Some []
   else if b <? 194 then None
   else if b <? 224 then Some [(128, 191)]
   else if b =? 224 then Some [(160, 191); (128, 191)]
   else if b =? 237 then Some [(128, 159); (128, 191)]
   else if b <? 240 then Some [(128, 191); (128, 191)]
   else if b =? 240 then Some [(144, 191); (128, 191); (128, 191)]
   else if b <? 244 then Some [(128, 191); (128, 191); (128, 191)]
   else if b =? 244 then Some [(128, 143); (128, 191); (128, 191)]
   else None)%N.

(** Where the decoder stands: outside an escape, behind the percent sign,
    or behind the first digit. *)
Inductive Phase := Outside | Percent | Digit (high : N).

(** [need] lists the ranges of the bytes still due in the UTF-8 sequence
    under way; each of them has to come as an escape.  The result is the
    decoded text in UTF-8, or [None] where [decodeURIComponent] throws a
    [URIError]. *)
Fixpoint decode (need : list (N * N)) (phase : Phase) (s : string)
  : option string :=
  match s, phase with
  | EmptyString, Outside =>
      match need with [] => Some EmptyString | _ => None end
  | EmptyString, _ => None
  | String c rest, Outside =>
      if Ascii.eqb c "%" then decode need Percent rest
      else match need with
           | [] => String c <$> decode [] Outside rest
           | _ => None
           end
  | String c rest, Percent =>
      match hex_digit c with
      | Some high => decode need (Digit high) rest
      | None => None
      end
  | String c rest, Digit high =>
      match hex_digit c with
      | Some low =>
          let b := (16 * high + low)%N in
          match need with
          | [] =>
              match continuation b with
              | Some need' => String (ascii_of_N b) <$> decode need' Outside rest
              | None => None
              end
          | (lo, hi) :: need' =>
              if ((lo <=? b) && (b <=? hi))%N
              then String (ascii_of_N b) <$> decode need' Outside rest
              else None
          end
      | None => None
      end
  end.

Definition decodeURIComponent (s : string) : option string :=
  decode [] Outside s.

Definition decodes (s : string) : bool :=
  match decodeURIComponent s with
  | Some _ => true
  | None => false
  end.

(** *** qs *)

(** Where [qs] splits a part into name and value: behind the first [\]=]
    when there is one, else at the first [=]. *)
Fixpoint cut_bracket (s : string) : option (string * string) :=
  match s with
  | EmptyString => None
  | String c rest =>
      match rest with
      | String "=" value =>
          if Ascii.eqb c "]" then Some (String c EmptyString, value)
          else match cut_bracket rest with
               | Some (k, v) => Some (String c k, v)
               | None => None
               end
      | _ => match cut_bracket rest with
             | Some (k, v) => Some (String c k, v)
             | None => None
             end
      end
  end.

(** A part without [=] has the empty value. *)
Definition pair_of_part (part : string) : string * string :=
  match cut_bracket part with
  | Some kv => kv
  | None =>
      let '(k, v) := cut "=" part in
      (k, match v with Some v => v | None => EmptyString end)
  end.

Fixpoint plus_to_space (s : string) : string :=
  match s with
  | EmptyString => EmptyString
  | String c rest =>
      String (if Ascii.eqb c "+" then " "%char else c) (plus_to_space rest)
  end.

(** The decoder of [qs]: a plus sign is a space, the escapes are decoded,
    and a text that does not decode is kept as it is. *)
Definition qs_decode (s : string) : string :=
  let s := plus_to_space s in
  default s (decodeURIComponent s).

(** The number of parts [qs] reads ([parameterLimit]). *)
Definition parameterLimit : nat := 1000.

(** A parameter without a name is dropped, and so is [__proto__]. *)
Definition named (kv : string * string) : bool :=
  negb (String.eqb (fst kv) EmptyString) && negb (String.eqb (fst kv) "__proto__").

(** The parameters [qs] reads off a query string, in order: the first
    thousand parts between ampersands, decoded. *)
Definition parameters (q : string) : list (string * string) :=
  List.filter named
    (map (fun part => let '(k, v) := pair_of_part part in (qs_decode k, qs_decode v))
         (firstn parameterLimit (split "&" q))).

(** How [qs] merges a value into the object it builds: a key seen before
    collects its values in an array, in the order of the query string. *)
Fixpoint qs_merge (k : string) (v : Value) (fs : list (string * Value))
  : list (string * Value) :=
  match fs with
  | [] => [(k, v)]
  | (k', old) :: rest =>
      if String.eqb k k'
      then (k', match old with
                | VArr items => VArr (items ++ [v])
                | _ => VArr [old; v]
                end) :: rest
      else (k', old) :: qs_merge k v rest
  end.

(** Express's query parser, [qs.parse], on parameters written plainly: a
    name that holds an opening bracket is not read as the nested notation
    of [qs]. *)
Definition qs_parse (q : string) : Value :=
  VObj (fold_left (fun fs kv => qs_merge (fst kv) (VStr (snd kv)) fs)
                  (parameters q) []).

(** ** The host *)

Inductive ConnectOutcome :=
| Accepted (h : ConnectionHandle)
| Refused (e : Error).

(** What a route group does with a request it is mounted for. *)
Inductive GroupOutcome :=
| Handled (res : Response)
| Fallthrough
| Raised (err : Error).

(** Everything the gateway takes from outside its own file.
    - [process_env] is [process.env] after [dotenv.config()];
    - [mongo uri n] is the answer of the backing store to the [n]-th call of
      [mongoose.connect] of this process;
    - [clock] is the time value [new Date()] reads, in milliseconds;
    - [routeGroup prefix] is the router imported from the server folder and
      mounted at [prefix];
    - [errorHandler] is the error middleware imported from the server
      folder. *)
Record Host := {
  process_env : gmap string string;
  mongo : option string -> nat -> ConnectOutcome;
  clock : Z;
  routeGroup : string -> Request -> GroupOutcome;
  errorHandler : Error -> Request -> Response
}.

(** ** A state-and-exception monad for the asynchronous functions *)

Inductive Result (A : Type) :=
| Ok (a : A)
| Throw (e : Error).
Arguments Ok {A} a.
Arguments Throw {A} e.

Definition M (A : Type) : Type := World -> Result A * World.

Definition ret {A} (a : A) : M A := fun w => (Ok a, w).

Definition bind {A B} (m : M A) (k : A -> M B) : M B :=
  fun w => match m w with
           | (Ok a, w') => k a w'
           | (Throw e, w') => (Throw e, w')
           end.

Definition throw {A} (e : Error) : M A := fun w => (Throw e, w).

Definition try_catch {A} (m : M A) (handler : Error -> M A) : M A :=
  fun w => match m w with
           | (Ok a, w') => (Ok a, w')
           | (Throw e, w') => handler e w'
           end.

Definition tell (e : Event) : M unit := fun w => (Ok tt, emit e w).

Definition read {A} (f : World -> A) : M A := fun w => (Ok (f w), w).

Definition set_cachedDb (h : ConnectionHandle) : M unit :=
  fun w => (Ok tt, {| cachedDb := Some h; readyState := readyState w; events := events w |}).

Definition set_readyState (s : Z) : M unit :=
  fun w => (Ok tt, {| cachedDb := cachedDb w; readyState := s; events := events w |}).

#[global] Instance M_ret : MRet M := @ret.
#[global] Instance M_bind : MBind M := fun A B k m => bind m k.

(** ** Dates *)

(** [Date.prototype.toISOString] on a time value (milliseconds since the
    epoch, UTC), and the shape of its output. *)
Module Date.

Definition msPerDay : Z := 86400000.

(** The largest time value of a [Date]; behind it the date is invalid. *)
Definition maxTime : Z := 8640000000000000.

Definition valid (t : Z) : bool := (- maxTime <=? t) && (t <=? maxTime).

(** Year, month (1 to 12) and day of the month of a day number, in the
    proleptic Gregorian calendar; the computation works in 400-year eras
    that start on the first of March. *)
Definition civil (day : Z) : Z * Z * Z :=
  let z := day + 719468 in
  let era := z / 146097 in
  let doe := z mod 146097 in
  let yoe := (doe - doe / 1460 + doe / 36524 - doe / 146096) / 365 in
  let doy := doe - (365 * yoe + yoe / 4 - yoe / 100) in
  let mp := (5 * doy + 2) / 153 in
  let d := doy - (153 * mp + 2) / 5 + 1 in
  let m := if mp <? 10 then mp + 3 else mp - 9 in
  let y := yoe + era * 400 + (if m <=? 2 then 1 else 0) in
  (y, m, d).

Definition digit (n : Z) : ascii := ascii_of_N (48 + Z.to_N n).

(** [pad w n rest]: the [w] low decimal digits of [n], in front of [rest]. *)
Fixpoint pad (w : nat) (n : Z) (rest : string) : string :=
  match w with
  | O => rest
  | S w' => pad w' (n / 10) (String (digit (n mod 10)) rest)
  end.

Definition year_field (y : Z) (rest : string) : string :=
  if (0 <=? y) && (y <=? 9999) then pad 4 y rest
  else String (if Z.ltb y 0 then "-"%char else "+"%char) (pad 6 (Z.abs y) rest).

Definition format (t : Z) : string :=
  let '(y, m, d) := civil (t / msPerDay) in
  let ms := t mod msPerDay in
  let millis := String "." (pad 3 (ms mod 1000) "Z") in
  let seconds := String ":" (pad 2 (ms / 1000 mod 60) millis) in
  let minutes := String ":" (pad 2 (ms / 60000 mod 60) seconds) in
  let hours := String "T" (pad 2 (ms / 3600000) minutes) in
  let days := String "-" (pad 2 d hours) in
  let months := String "-" (pad 2 m days) in
  year_field y months.

(** An invalid date throws a [RangeError]. *)
Definition toISOString (t : Z) : Error + string :=
  if valid t then inr (format t)
  else inl {| message := "Invalid time value"; status := None |}.

(** *** Recognising the ISO-8601 date-time form *)

Definition digit_value (c : ascii) : option Z :=
  let n := N_of_ascii c in
  if ((48 <=? n) && (n <=? 57))%N then Some (Z.of_N n - 48) else None.

(** Reads [w] decimal digits. *)
Fixpoint number (w : nat) (acc : Z) (s : string) : option (Z * string) :=
  match w with
  | O => Some (acc, s)
  | S w' =>
      match s with
      | String c rest =>
          match digit_value c with
          | Some d => number w' (10 * acc + d) rest
          | None => None
          end
      | EmptyString => None
      end
  end.

Definition literal (c : ascii) (s : string) : option string :=
  match s with
  | String a rest => if Ascii.eqb a c then Some rest else None
  | EmptyString => None
  end.

(** A four-digit year, or a sign and six digits for the years outside
    0 to 9999. *)
Definition year (s : string) : option (Z * string) :=
  match s with
  | String c rest =>
      if Ascii.eqb c "+" || Ascii.eqb c "-" then number 6 0 rest
      else number 4 0 s
  | EmptyString => None
  end.

Definition between (lo hi x : Z) : bool := (lo <=? x) && (x <=? hi).

(** [YYYY-MM-DDTHH:mm:ss.sssZ] (or with the expanded year), every field in
    its range. *)
Definition iso8601 (s : string) : bool :=
  match
    '(_, s) ← year s;
    s ← literal "-" s;
    '(mo, s) ← number 2 0 s;
    s ← literal "-" s;
    '(d, s) ← number 2 0 s;
    s ← literal "T" s;
    '(h, s) ← number 2 0 s;
    s ← literal ":" s;
    '(mi, s) ← number 2 0 s;
    s ← literal ":" s;
    '(sec, s) ← number 2 0 s;
    s ← literal "." s;
    '(_, s) ← number 3 0 s;
    s ← literal "Z" s;
    Some (between 1 12 mo && between 1 31 d && between 0 23 h
          && between 0 59 mi && between 0 59 sec && String.eqb s EmptyString)
  with
  | Some b => b
  | None => false
  end.

End Date.

(** ** The third-party middleware, as configured by the gateway *)

(** JavaScript truthiness. *)
Definition truthy (v : Value) : bool :=
  match v with
  | VUndefined | VNull => false
  | VBool b => b
  | VNum n => negb (Z.eqb n 0)
  | VStr s => negb (String.eqb s EmptyString)
  | VArr _ | VObj _ => true
  end.

Definition with_query (q polluted : Value) (req : Request) : Request :=
  {| incoming := incoming req; originalUrl := originalUrl req;
     query := q; queryPolluted := polluted;
     body := body req; body_parsed := body_parsed req;
     bodyPolluted := bodyPolluted req |}.

Definition with_body (b polluted : Value) (req : Request) : Request :=
  {| incoming := incoming req; originalUrl := originalUrl req;
     query := query req; queryPolluted := queryPolluted req;
     body := b; body_parsed := body_parsed req; bodyPolluted := polluted |}.

(** [req.body = b; req._body = true] *)
Definition with_parsed_body (b : Value) (req : Request) : Request :=
  {| incoming := incoming req; originalUrl := originalUrl req;
     query := query req; queryPolluted := queryPolluted req;
     body := b; body_parsed := true; bodyPolluted := bodyPolluted req |}.

(** *** cors *)

Record CorsOptions := {
  optionsSuccessStatus : Z;
  preflightContinue : bool
}.

(** The defaults of the [cors] package. *)
Definition corsDefaults : CorsOptions :=
  {| optionsSuccessStatus := 204; preflightContinue := false |}.

(** [cors(options)]: every [OPTIONS] request is a preflight; unless
    [preflightContinue] is set the middleware ends the response itself, with
    the configured status and a content length of zero.  Any other request
    gets its headers and goes on. *)
Definition cors (o : CorsOptions) (req : Request) : M Outcome :=
  match method (incoming req) with
  | OPTIONS =>
      if preflightContinue o then ret (Next req)
      else ret (Respond {| statusCode := optionsSuccessStatus o;
                           responseBody := EmptyBody |})
  | _ => ret (Next req)
  end.

(** *** helmet, compression: they only touch the response headers and the
    response stream. *)
Definition helmet (req : Request) : M Outcome := ret (Next req).
Definition compression (req : Request) : M Outcome := ret (Next req).

(** *** express.json, express.urlencoded *)

(** ['10mb'], in bytes. *)
Definition bodyLimit : Z := 10 * 1024 * 1024.

(** A body parser for the media types [wanted].  A request whose body is
    already parsed is passed on; otherwise [req.body] defaults to the empty
    object, an entity of another type is left alone, an entity longer than
    the limit is refused with 413 and a malformed one with 400. *)
Definition body_parser (wanted : MediaType -> bool) (limit : Z) (req : Request)
  : M Outcome :=
  if body_parsed req then ret (Next req)
  else
    let req := with_body (if truthy (body req) then body req else VObj [])
                         (bodyPolluted req) req in
    match entity (incoming req) with
    | None => ret (Next req)
    | Some e =>
        if wanted (mediaType e) then
          if Z.ltb limit (contentLength e) then
            ret (NextErr {| message := "request entity too large";
                            status := Some 413 |} req)
          else
            match decoding e with
            | Decodes v => ret (Next (with_parsed_body v req))
            | Malformed why =>
                ret (NextErr {| message := why; status := Some 400 |} req)
            end
        else ret (Next req)
    end.

Definition is_json (m : MediaType) : bool :=
  match m with ApplicationJson => true | _ => false end.

Definition is_urlencoded (m : MediaType) : bool :=
  match m with FormUrlencoded => true | _ => false end.

Definition express_json := body_parser is_json.
Definition express_urlencoded := body_parser is_urlencoded.

(** *** express-mongo-sanitize *)

(** A key is prohibited when it starts with a dollar sign or contains a
    dot. *)
Definition prohibited (k : string) : bool :=
  match drop_prefix "$" k, snd (cut "." k) with
  | None, None => false
  | _, _ => true
  end.

(** Prohibited keys are deleted, at every depth. *)
Fixpoint sanitize (v : Value) : Value :=
  match v with
  | VArr items => VArr (map sanitize items)
  | VObj fs =>
      VObj ((fix go (fs : list (string * Value)) : list (string * Value) :=
               match fs with
               | [] => []
               | (k, x) :: rest =>
                   if prohibited k then go rest else (k, sanitize x) :: go rest
               end) fs)
  | _ => v
  end.

Definition sanitized (req : Request) : Request :=
  with_body (sanitize (body req)) (bodyPolluted req)
    (with_query (sanitize (query req)) (queryPolluted req) req).

Definition mongoSanitize (req : Request) : M Outcome := ret (Next (sanitized req)).

(** *** xss-clean *)

(** [inHTMLData] of xss-filters: every [<] becomes [&lt;]. *)
Fixpoint inHTMLData (s : string) : string :=
  match s with
  | EmptyString => EmptyString
  | String c rest =>
      if Ascii.eqb c "<" then "&lt;" +:+ inHTMLData rest
      else String c (inHTMLData rest)
  end.

(** The assignment [o[k] = v]: a property that exists keeps its place and
    takes the new value, a new one comes last. *)
Fixpoint assign (k : string) (v : Value) (fs : list (string * Value))
  : list (string * Value) :=
  match fs with
  | [] => [(k, v)]
  | (k', old) :: rest =>
      if String.eqb k k' then (k', v) :: rest else (k', old) :: assign k v rest
  end.

(** The object [JSON.parse] builds from the members of an object text: of
    two members with one name, the later one gives the value. *)
Definition members (fs : list (string * Value)) : list (string * Value) :=
  fold_left (fun o kv => assign (fst kv) (snd kv) o) fs [].

(** The filter runs over the JSON text, so that it escapes the names as
    well as the values; two names that the escaping makes equal become one
    property when the text is parsed. *)
Fixpoint escape (v : Value) : Value :=
  match v with
  | VStr s => VStr (inHTMLData s)
  | VArr items => VArr (map escape items)
  | VObj fs =>
      VObj (members
              ((fix go (fs : list (string * Value)) : list (string * Value) :=
                  match fs with
                  | [] => []
                  | (k, x) :: rest => (inHTMLData k, escape x) :: go rest
                  end) fs))
  | _ => v
  end.

(** [clean] on an object: the object is serialised, filtered as text and
    parsed again, which escapes every string in it, names included.  The
    middleware cleans [req.body] and [req.query] when they are truthy; both
    are objects (or arrays) at this point of the pipeline. *)
Definition clean (v : Value) : Value :=
  match v with
  | VArr _ | VObj _ => escape (jsonify v)
  | _ => v
  end.

Definition cleaned (req : Request) : Request :=
  with_body (clean (body req)) (bodyPolluted req)
    (with_query (clean (query req)) (queryPolluted req) req).

Definition xss (req : Request) : M Outcome := ret (Next (cleaned req)).

(** *** hpp *)

(** [arr[arr.length - 1]] *)
Definition last_item (items : list Value) : Value :=
  default VUndefined (last items).

(** Every top-level parameter whose value is an array is put aside under the
    same key and replaced by the last item of the array; there is no
    whitelist in this configuration. *)
Fixpoint put_aside (fs : list (string * Value))
  : list (string * Value) * list (string * Value) :=
  match fs with
  | [] => ([], [])
  | (k, VArr items) :: rest =>
      let '(kept, aside) := put_aside rest in
      ((k, last_item items) :: kept, (k, VArr items) :: aside)
  | (k, v) :: rest =>
      let '(kept, aside) := put_aside rest in
      ((k, v) :: kept, aside)
  end.

Definition has_media (wanted : MediaType -> bool) (req : Request) : bool :=
  match entity (incoming req) with
  | Some e => wanted (mediaType e)
  | None => false
  end.

(** [hpp()] checks [req.query], and [req.body] when the request is
    url-encoded. *)
Definition unpolluted (req : Request) : Request :=
  let req :=
    match query req with
    | VObj fs => with_query (VObj (fst (put_aside fs))) (VObj (snd (put_aside fs))) req
    | _ => req
    end in
  match body req, has_media is_urlencoded req with
  | VObj fs, true => with_body (VObj (fst (put_aside fs))) (VObj (snd (put_aside fs))) req
  | _, _ => req
  end.

Definition hpp (req : Request) : M Outcome := ret (Next (unpolluted req)).

(** ** Express *)

(** A registered callback: ordinary middleware, or error-handling middleware
    (the four-argument form). *)
Inductive Callback :=
| Middleware (f : Request -> M Outcome)
| ErrorMiddleware (f : Error -> Request -> M Outcome).

(** What matching a layer against a request gives: the layer is for the
    request, it is not, or the match itself throws. *)
Inductive Match :=
| Matched
| Missed
| Failed (e : Error).

(** A layer of the application stack: the callback and the requests it is
    registered for. *)
Record Layer := {
  stage : Stage;
  matches : Request -> Match;
  callback : Callback
}.

(** The path Express routes on: the [pathname] of the parsed target. *)
Definition path (req : Request) : string := pathname (url (incoming req)).

(** The error of [decode_param]. *)
Definition decode_failure (val : string) : Error :=
  {| message := "Failed to decode param '" +:+ val +:+ "'"; status := Some 400 |}.

(** What a path pattern captures is decoded with [decodeURIComponent]; a
    text that does not decode makes the match throw. *)
Definition decode_param (val : string) (m : Match) : Match :=
  if decodes val then m else Failed (decode_failure val).

(** [app.use(fn)]: every request. *)
Definition use (s : Stage) (f : Request -> M Outcome) : Layer :=
  {| stage := s; matches := fun _ => Matched; callback := Middleware f |}.

(** [app.use(fn)] with an error handler. *)
Definition use_error (s : Stage) (f : Error -> Request -> M Outcome) : Layer :=
  {| stage := s; matches := fun _ => Matched; callback := ErrorMiddleware f |}.

(** A mount path matches the paths that start with it, letter case apart,
    and go on with a slash or end there. *)
Definition mounted_at (prefix p : string) : bool :=
  match drop_prefix (lower prefix) (lower p) with
  | Some EmptyString => true
  | Some (String c _) => Ascii.eqb c "/"
  | None => false
  end.

(** [app.use(prefix, fn)] *)
Definition use_at (prefix : string) (s : Stage) (f : Request -> M Outcome) : Layer :=
  {| stage := s;
     matches := fun req => if mounted_at prefix (path req) then Matched else Missed;
     callback := Middleware f |}.

Definition starts_with (p s : string) : bool :=
  match drop_prefix p s with
  | Some _ => true
  | None => false
  end.

(** The pattern [prefix/*]: the paths that start with [prefix/], letter case
    apart. *)
Definition under (prefix p : string) : bool :=
  starts_with (lower prefix +:+ "/") (lower p).

Fixpoint skip (n : nat) (s : string) : string :=
  match n, s with
  | S n', String _ rest => skip n' rest
  | _, _ => s
  end.

(** What the star of [prefix/*] captures: the path behind [prefix/]. *)
Definition star (prefix p : string) : string :=
  skip (S (String.length prefix)) p.

(** [app.use(prefix + '/*', fn)] *)
Definition use_under (prefix : string) (s : Stage) (f : Request -> M Outcome) : Layer :=
  {| stage := s;
     matches := fun req =>
       if under prefix (path req)
       then decode_param (star prefix (path req)) Matched
       else Missed;
     callback := Middleware f |}.

(** A route path matches itself, letter case apart, with or without a
    trailing slash. *)
Definition route_path (pattern p : string) : bool :=
  match drop_prefix (lower pattern) (lower p) with
  | Some rest => String.eqb rest EmptyString || String.eqb rest "/"
  | None => false
  end.

(** A route registered for [GET] also answers [HEAD]. *)
Definition route_method (registered m : Method) : bool :=
  match registered, m with
  | GET, HEAD => true
  | _, _ => Method_eqb registered m
  end.

(** [app.get(pattern, fn)], for a pattern without parameters: nothing of the
    path is decoded. *)
Definition get_route (pattern : string) (s : Stage) (f : Request -> M Outcome) : Layer :=
  {| stage := s;
     matches := fun req =>
       if route_method GET (method (incoming req))
          && route_path pattern (path req)
       then Matched else Missed;
     callback := Middleware f |}.

(** [app.options('*', fn)]: the star captures the whole path, which is
    decoded whatever the method of the request is. *)
Definition options_all (s : Stage) (f : Request -> M Outcome) : Layer :=
  {| stage := s;
     matches := fun req =>
       decode_param (path req)
         (if route_method OPTIONS (method (incoming req)) then Matched else Missed);
     callback := Middleware f |}.

(** What Express answers when the stack is exhausted: 404, or the status of
    the pending error (500 when it has none in the error range). *)
Definition finalhandler (pending : option Error) : Response :=
  match pending with
  | None => {| statusCode := 404; responseBody := DefaultPage |}
  | Some e =>
      {| statusCode := match status e with
                       | Some c => if (400 <=? c) && (c <? 600) then c else 500
                       | None => 500
                       end;
         responseBody := DefaultPage |}
  end.

(** The layers are tried in registration order.  A layer that is not for
    the request is passed over; so is ordinary middleware while an error is
    pending, and error middleware while none is.  A match that throws
    leaves its error pending, unless one is pending already, and a callback
    that throws is caught by Express and leaves its error pending. *)
Fixpoint dispatch (stack : list Layer) (pending : option Error)
                  (req : Request) (w : World) : Response * World :=
  match stack with
  | [] => (finalhandler pending, w)
  | layer :: rest =>
      match matches layer req with
      | Matched =>
          match callback layer, pending with
          | Middleware f, None =>
              match f req (emit (Enter (stage layer)) w) with
              | (Ok (Next req'), w') => dispatch rest None req' w'
              | (Ok (NextErr e req'), w') => dispatch rest (Some e) req' w'
              | (Ok (Respond res), w') => (res, w')
              | (Throw e, w') => dispatch rest (Some e) req w'
              end
          | ErrorMiddleware f, Some err =>
              match f err req (emit (Enter (stage layer)) w) with
              | (Ok (Next req'), w') => dispatch rest None req' w'
              | (Ok (NextErr e req'), w') => dispatch rest (Some e) req' w'
              | (Ok (Respond res), w') => (res, w')
              | (Throw e, w') => dispatch rest (Some e) req w'
              end
          | _, _ => dispatch rest pending req w
          end
      | Missed => dispatch rest pending req w
      | Failed e => dispatch rest (Some (default e pending)) req w
      end
  end.

(** The request object Express builds for a message: the query string is
    parsed, nothing else is set yet. *)
Definition request_of (msg : IncomingMessage) : Request :=
  {| incoming := msg; originalUrl := href (url msg);
     query := match querystring (url msg) with
              | Some q => qs_parse q
              | None => VObj []
              end;
     queryPolluted := VUndefined;
     body := VUndefined; body_parsed := false; bodyPolluted := VUndefined |}.

Section Gateway.

Variable host : Host.

(** ** The connection cache *)

(** [process.env.MONGODB_URI] *)
Definition MONGODB_URI : option string := process_env host !! "MONGODB_URI".

Definition connectOptions : ConnectOptions :=
  {| useNewUrlParser := true;
     useUnifiedTopology := true;
     maxPoolSize := 10;
     serverSelectionTimeoutMS := 5000;
     socketTimeoutMS := 45000 |}.

(** [mongoose.connect(uri, opts)]: the call is recorded, the store answers,
    and mongoose's connection state follows the answer. *)
Definition mongoose_connect (uri : option string) (opts : ConnectOptions)
  : M ConnectionHandle :=
  n ← read connectCalls;
  tell (MongooseConnect uri opts);;
  match mongo host uri n with
  | Accepted h => set_readyState 1;; ret h
  | Refused e => set_readyState 0;; throw e
  end.

Definition connectToDatabase : M ConnectionHandle :=
  cached ← read cachedDb;
  state ← read readyState;
  match cached, Z.eqb state 1 with
  | Some h, true =>
      tell (ConsoleLog "Using cached database connection");;
      ret h
  | _, _ =>
      try_catch
        (tell (ConsoleLog "Creating new database connection...");;
         tell (MongooseSet "strictQuery" false);;
         db ← mongoose_connect MONGODB_URI connectOptions;
         set_cachedDb db;;
         tell (ConsoleLog "MongoDB Connected Successfully");;
         ret db)
        (fun error =>
           tell (ConsoleError "MongoDB connection error:" error);;
           throw error)
  end.

(** ** The connection gate *)

(** [process.env.NODE_ENV === 'development'] *)
Definition development : bool :=
  bool_decide (process_env host !! "NODE_ENV" = Some "development").

Definition connectionGate (req : Request) : M Outcome :=
  try_catch
    (connectToDatabase;;
     ret (Next req))
    (fun error =>
       tell (ConsoleError "Database connection middleware error:" error);;
       ret (Respond (json 500 (VObj [
         ("status", VStr "error");
         ("message", VStr "Database connection failed");
         ("error", if development then VStr (message error) else VUndefined)
       ])))).

(** ** The health endpoint *)

(** [process.env.NODE_ENV || 'production'] *)
Definition environment : string :=
  match process_env host !! "NODE_ENV" with
  | Some v => if String.eqb v EmptyString then "production" else v
  | None => "production"
  end.

Definition health (req : Request) : M Outcome :=
  state ← read readyState;
  match Date.toISOString (clock host) with
  | inr timestamp =>
      ret (Respond (json 200 (VObj [
        ("status", VStr "success");
        ("message", VStr "Hospital Management API is running");
        ("timestamp", VStr timestamp);
        ("environment", VStr environment);
        ("mongoStatus", VStr (if Z.eqb state 1 then "connected" else "disconnected"))
      ])))
  | inl range_error => throw range_error
  end.

(** ** The route table *)

(** The mount paths, in registration order; each is served by the router
    the host provides for it. *)
Definition routeTable : list string := [
  "/api/auth"; "/api/users"; "/api/patients"; "/api/doctors";
  "/api/surgeons"; "/api/nurses"; "/api/departments"; "/api/appointments";
  "/api/visits"; "/api/wards"; "/api/beds"; "/api/ipd-records";
  "/api/dashboard"; "/api/lab-tests"; "/api/radiology"; "/api/theatres";
  "/api/theatre-procedures"; "/api/prescriptions"; "/api/medicines";
  "/api/billing"; "/api/services"; "/api/stock"; "/api/dispensing";
  "/api/direct-dispensing"; "/api/requisitions"; "/api/item-pricing";
  "/api/item-receiving"; "/api/incoming-items"; "/api/corpses";
  "/api/cabinets"; "/api/releases"
].

Definition delegate (prefix : string) (req : Request) : M Outcome :=
  match routeGroup host prefix req with
  | Handled res => ret (Respond res)
  | Fallthrough => ret (Next req)
  | Raised err => ret (NextErr err req)
  end.

Definition mount (prefix : string) : Layer :=
  use_at prefix (RouteGroup prefix) (delegate prefix).

(** ** The 404 responder and the error sink *)

Definition notFound (req : Request) : M Outcome :=
  ret (Respond (json 404 (VObj [
    ("status", VStr "error");
    ("message", VStr ("API route " +:+ originalUrl req +:+ " not found"))
  ]))).

Definition errorSink (err : Error) (req : Request) : M Outcome :=
  ret (Respond (errorHandler host err req)).

(** ** The application *)

Definition corsOptions : CorsOptions :=
  {| optionsSuccessStatus := 200; preflightContinue := false |}.

(** What is registered ahead of the connection gate. *)
Definition securityPipeline : list Layer := [
  use Cors (cors corsOptions);
  options_all Preflight (cors corsDefaults);
  use Helmet helmet;
  use JsonParser (express_json bodyLimit);
  use UrlencodedParser (express_urlencoded bodyLimit);
  use MongoSanitize mongoSanitize;
  use XssClean xss;
  use Hpp hpp;
  use Compression compression
].

(** What is registered behind it. *)
Definition router : list Layer :=
  get_route "/api/health" Health health
  :: map mount routeTable
  ++ [ use_under "/api" NotFound notFound;
       use_error ErrorSink errorSink ].

Definition stack : list Layer :=
  securityPipeline ++ use ConnectionGate connectionGate :: router.

(** One request, served by the exported application. *)
Definition app (msg : IncomingMessage) (w : World) : Response * World :=
  dispatch stack None (request_of msg) w.

End Gateway.

(** * The vocabulary of the properties *)

(** The events of [w'] that are not yet in [w]. *)
Definition since (w w' : World) : list Event :=
  drop (length (events w)) (events w').

(** The cache can answer: a handle is cached and mongoose is connected. *)
Definition warm (w : World) : bool :=
  match cachedDb w with
  | Some _ => Z.eqb (readyState w) 1
  | None => false
  end.

(** The timeouts of an attempt, in milliseconds. *)
Definition bounded_wait (ev : Event) : Prop :=
  match ev with
  | MongooseConnect _ opts =>
      serverSelectionTimeoutMS opts = 5 * 1000
      /\ socketTimeoutMS opts = 45 * 1000
  | _ => True
  end.

(** The world after the callbacks of [stages] have been entered. *)
Definition entered (stages : list Stage) (w : World) : World :=
  fold_left (fun w s => emit (Enter s) w) stages w.

(** The stages a request that is not a preflight goes through before the
    gate. *)
Definition pipelineStages : list Stage :=
  [Cors; Helmet; JsonParser; UrlencodedParser; MongoSanitize; XssClean; Hpp;
   Compression].

(** Whether the entity of a message goes through the body parsers. *)
Definition parses (msg : IncomingMessage) : bool :=
  match entity msg with
  | None => true
  | Some e =>
      if is_json (mediaType e) || is_urlencoded (mediaType e) then
        (contentLength e <=? bodyLimit)
        && match decoding e with Decodes _ => true | Malformed _ => false end
      else true
  end.

(** The request as the body parsers leave it. *)
Definition received (msg : IncomingMessage) : Request :=
  match entity msg with
  | Some {| mediaType := m; decoding := Decodes v |} =>
      if is_json m || is_urlencoded m
      then with_parsed_body v (request_of msg)
      else with_body (VObj []) VUndefined (request_of msg)
  | _ => with_body (VObj []) VUndefined (request_of msg)
  end.

(** The request as the security pipeline hands it to the gate. *)
Definition prepared (msg : IncomingMessage) : Request :=
  unpolluted (cleaned (sanitized (received msg))).

(** The world in which the gate's callback starts. *)
Definition at_gate (w : World) : World :=
  emit (Enter ConnectionGate) (entered pipelineStages w).

(** No entry of the route table is mounted on the path. *)
Definition unrouted (p : string) : bool :=
  forallb (fun prefix => negb (mounted_at prefix p)) routeTable.

(** The request is for the health route. *)
Definition for_health (msg : IncomingMessage) : bool :=
  route_method GET (method msg) && route_path "/api/health" (pathname (url msg)).

Definition not_found (u : string) : Response :=
  {| statusCode := 404;
     responseBody :=
       JsonBody (VObj [("status", VStr "error");
                       ("message", VStr ("API route " +:+ u +:+ " not found"))]) |}.

(** A route handler: the health route, a route group or the 404 responder. *)
Definition is_route (s : Stage) : bool :=
  match s with
  | Health | RouteGroup _ | NotFound => true
  | _ => false
  end.

Definition enters_route (ev : Event) : bool :=
  match ev with
  | Enter s => is_route s
  | _ => false
  end.

(** Every route handler of the trace is entered behind the gate; [seen]
    tells whether the gate has been entered already. *)
Fixpoint gated (seen : bool) (evs : list Event) : bool :=
  match evs with
  | [] => true
  | Enter ConnectionGate :: rest => gated true rest
  | ev :: rest => (negb (enters_route ev) || seen) && gated seen rest
  end.

(** What is registered behind the gate leaves the world as it is, apart
    from the stages entered. *)
Definition stateless (layer : Layer) : Prop :=
  match callback layer with
  | Middleware f => forall req w, snd (f req w) = w
  | ErrorMiddleware f => forall e req w, snd (f e req w) = w
  end.

(** The values of a parameter in a list of parameters, in order. *)
Definition occurrences (k : string) (kvs : list (string * string)) : list string :=
  map snd (List.filter (fun kv => String.eqb k (fst kv)) kvs).

(** No parameter of the query string has a name that [qs] reads as its
    bracket notation, or that the filter of [xss-clean] rewrites. *)
Definition plain_names (q : string) : bool :=
  forallb (fun kv => negb (has "[" (fst kv)) && negb (has "<" (fst kv)))
          (parameters q).

(** The names of the properties of an object. *)
Definition names (fs : list (string * Value)) : list string := map fst fs.

(** A string, or an array of strings: the values the query parser gives to
    parameters written plainly. *)
Definition textual (v : Value) : bool :=
  match v with
  | VStr _ => true
  | VArr items => forallb (fun x => match x with VStr _ => true | _ => false end) items
  | _ => false
  end.

(** What [qs] makes of the values [vs] of one key, on top of [old]. *)
Definition merged (old : option Value) (vs : list string) : option Value :=
  fold_left (fun o v => Some match o with
                             | None => VStr v
                             | Some (VArr items) => VArr (items ++ [VStr v])
                             | Some x => VArr [x; VStr v]
                             end) vs old.

Section Outcomes.

Variable host : Host.

(** What a call leaves behind when it has to connect and the store accepts. *)
Definition connected_world (h : ConnectionHandle) (w : World) : World :=
  {| cachedDb := Some h; readyState := 1;
     events := events w ++ [ConsoleLog "Creating new database connection...";
                            MongooseSet "strictQuery" false;
                            MongooseConnect (MONGODB_URI host) connectOptions;
                            ConsoleLog "MongoDB Connected Successfully"] |}.

(** What it leaves behind when the store refuses. *)
Definition refused_world (e : Error) (w : World) : World :=
  {| cachedDb := cachedDb w; readyState := 0;
     events := events w ++ [ConsoleLog "Creating new database connection...";
                            MongooseSet "strictQuery" false;
                            MongooseConnect (MONGODB_URI host) connectOptions;
                            ConsoleError "MongoDB connection error:" e] |}.

(** The gate's failure response. *)
Definition connection_failure (e : Error) : Response :=
  {| statusCode := 500;
     responseBody :=
       JsonBody (VObj ([("status", VStr "error");
                        ("message", VStr "Database connection failed")]
                       ++ if development host
                          then [("error", VStr (message e))] else [])) |}.

(** The health payload, for the connection state the handler reads. *)
Definition health_payload (timestamp : string) (state : Z) : Response :=
  {| statusCode := 200;
     responseBody :=
       JsonBody (VObj [
         ("status", VStr "success");
         ("message", VStr "Hospital Management API is running");
         ("timestamp", VStr timestamp);
         ("environment", VStr (environment host));
         ("mongoStatus",
          VStr (if Z.eqb state 1 then "connected" else "disconnected"))]) |}.

End Outcomes.

(** ** Requests in sequence, and what the sanitisers leave *)

(** What happens to a process: a request arrives, or mongoose's connection
    changes its state on its own (the connection drops, mongoose
    reconnects). *)
Inductive Happening :=
| Arrives (msg : IncomingMessage)
| ConnectionTurns (state : Z).

Definition is_turn (h : Happening) : bool :=
  match h with ConnectionTurns _ => true | Arrives _ => false end.

(** How often the connection changes its state on its own. *)
Definition turns (hs : list Happening) : nat := length (List.filter is_turn hs).

Section Service.

Variable host : Host.

(** One process serving requests one after the other, in arrival order. *)
Definition serve (msgs : list IncomingMessage) (w : World) : World :=
  fold_left (fun w msg => snd (app host msg w)) msgs w.

Definition happen (w : World) (h : Happening) : World :=
  match h with
  | Arrives msg => snd (app host msg w)
  | ConnectionTurns state =>
      {| cachedDb := cachedDb w; readyState := state; events := events w |}
  end.

(** The same process, with what happens to its connection between the
    requests. *)
Definition live (hs : list Happening) (w : World) : World :=
  fold_left happen hs w.

End Service.

(** The stages a request goes through when its path does not decode: the
    match of the preflight route throws, and the error sink answers. *)
Definition undecoded_stages : list Stage := [Cors; ErrorSink].

(** The stages a request with the entity [ent] goes through when a body
    parser refuses it: the JSON parser refuses JSON, the url-encoded parser
    behind it refuses forms, and the error sink answers. *)
Definition refusal_stages (ent : Entity) : list Stage :=
  [Cors; Helmet; JsonParser]
  ++ (if is_json (mediaType ent) then [] else [UrlencodedParser])
  ++ [ErrorSink].

(** No key of the value, at any depth, starts with a dollar sign or contains
    a dot. *)
Fixpoint operator_free (v : Value) : bool :=
  match v with
  | VArr items => forallb operator_free items
  | VObj fs =>
      (fix go (fs : list (string * Value)) : bool :=
         match fs with
         | [] => true
         | (k, x) :: rest => negb (prohibited k) && operator_free x && go rest
         end) fs
  | _ => true
  end.

(** The string has no [<]. *)
Fixpoint no_markup (s : string) : bool :=
  match s with
  | EmptyString => true
  | String c rest => negb (Ascii.eqb c "<") && no_markup rest
  end.

(** No string of the value, key or value, at any depth, has a [<]. *)
Fixpoint markup_free (v : Value) : bool :=
  match v with
  | VStr s => no_markup s
  | VArr items => forallb markup_free items
  | VObj fs =>
      (fix go (fs : list (string * Value)) : bool :=
         match fs with
         | [] => true
         | (k, x) :: rest => no_markup k && markup_free x && go rest
         end) fs
  | _ => true
  end.

(** ** Sample hosts, worlds and messages *)

(** A host whose store accepts every connection; [NODE_ENV] is not set. *)
Definition clinic : Host :=
  {| process_env := {[ "MONGODB_URI" := "mongodb://db.example/hospital" ]};
     mongo := fun _ n => Accepted {| session := n |};
     clock := 1793577600123;
     routeGroup := fun _ _ => Fallthrough;
     errorHandler := fun e _ =>
       {| statusCode := default 500 (status e);
          responseBody :=
            JsonBody (VObj [("status", VStr "error");
                            ("message", VStr (message e))]) |} |}.

Definition refusal : Error :=
  {| message := "connect ECONNREFUSED"; status := None |}.

(** The same host in development mode, with the store down. *)
Definition outage : Host :=
  {| process_env := <[ "NODE_ENV" := "development" ]> (process_env clinic);
     mongo := fun _ _ => Refused refusal;
     clock := clock clinic;
     routeGroup := routeGroup clinic;
     errorHandler := errorHandler clinic |}.

(** A process that has not connected yet. *)
Definition cold : World := {| cachedDb := None; readyState := 0; events := [] |}.

(** A message without an entity, for a target in origin form. *)
Definition request (m : Method) (u : string) : IncomingMessage :=
  {| method := m; url := origin u; entity := None |}.

(** A message with a JSON entity that does not parse. *)
Definition garbled : IncomingMessage :=
  {| method := POST; url := origin "/api/patients";
     entity := Some {| mediaType := ApplicationJson; contentLength := 9;
                       decoding := Malformed "Unexpected end of JSON input" |} |}.

(** A query string of [n] parts [b=0], joined by ampersands, in front of
    [rest]. *)
Fixpoint padded (n : nat) (rest : string) : string :=
  match n with
  | O => rest
  | S n' => "b=0&" +:+ padded n' rest
  end.

(** A host whose patients group answers, the other groups passing on. *)
Definition staffed : Host :=
  {| process_env := process_env clinic;
     mongo := mongo clinic;
     clock := clock clinic;
     routeGroup := fun prefix _ =>
       if String.eqb prefix "/api/patients"
       then Handled {| statusCode := 200;
                       responseBody := JsonBody (VObj [("status", VStr "success")]) |}
       else Fallthrough;
     errorHandler := errorHandler clinic |}.

(** A process that has connected once. *)
Definition warmed : World := connected_world clinic {| session := 0 |} cold.

(** A process whose connection has dropped since. *)
Definition dropped : World :=
  {| cachedDb := Some {| session := 0 |}; readyState := 0; events := [] |}.

(** * Properties *)

(** ** Events *)

Lemma since_emitted w w' evs :
  events w' = events w ++ evs -> since w w' = evs.
Proof. intros H. unfold since. rewrite H. by rewrite drop_app_length. Qed.

Lemma connectCalls_emit e w :
  connectCalls (emit e w) = (connectCalls w + (if is_connect e then 1 else 0))%nat.
Proof.
  unfold connectCalls, emit; cbn.
  rewrite List.filter_app, length_app. f_equal.
  destruct e; reflexivity.
Qed.

(** ** The connection cache *)

Section Cache.

Variable host : Host.

Lemma connect_warm w h :
  cachedDb w = Some h -> readyState w = 1 ->
  connectToDatabase host w
  = (Ok h, emit (ConsoleLog "Using cached database connection") w).
Proof.
  intros Hc Hr. unfold connectToDatabase, mbind, M_bind, bind, read.
  rewrite Hc, Hr. reflexivity.
Qed.

Lemma connect_cold w :
  warm w = false ->
  connectToDatabase host w
  = match mongo host (MONGODB_URI host) (connectCalls w) with
    | Accepted h => (Ok h, connected_world host h w)
    | Refused e => (Throw e, refused_world host e w)
    end.
Proof.
  intros Hw.
  assert (Hn : connectCalls
                 (emit (MongooseSet "strictQuery" false)
                    (emit (ConsoleLog "Creating new database connection...") w))
               = connectCalls w).
  { rewrite !connectCalls_emit; cbn; lia. }
  unfold connectToDatabase, mbind, M_bind, bind, read, try_catch,
    mongoose_connect, mbind, M_bind, bind, read, tell.
  fold (MONGODB_URI host).
  unfold warm in Hw.
  destruct (cachedDb w) as [h|] eqn:Hc; [rewrite Hw|];
    rewrite Hn; destruct (mongo host (MONGODB_URI host) (connectCalls w)); cbn;
    unfold connected_world, refused_world, emit; cbn;
    rewrite ?Hc, <- ?app_assoc; reflexivity.
Qed.

Lemma warm_connected_world h w : warm (connected_world host h w) = true.
Proof. reflexivity. Qed.

Lemma warm_refused_world e w : warm (refused_world host e w) = false.
Proof. unfold warm; cbn. by destruct (cachedDb w). Qed.

Lemma connectCalls_connected_world h w :
  connectCalls (connected_world host h w) = S (connectCalls w).
Proof.
  unfold connectCalls, connected_world; cbn.
  rewrite List.filter_app, length_app; cbn. lia.
Qed.

Lemma connectCalls_refused_world e w :
  connectCalls (refused_world host e w) = S (connectCalls w).
Proof.
  unfold connectCalls, refused_world; cbn.
  rewrite List.filter_app, length_app; cbn. lia.
Qed.

Lemma warm_inv w :
  warm w = true -> exists h, cachedDb w = Some h /\ readyState w = 1.
Proof.
  unfold warm. destruct (cachedDb w) as [h|]; [|done].
  intros H. exists h. split; [done|]. by apply Z.eqb_eq.
Qed.

(** A call that returns a handle leaves the cache warm with that handle. *)
Lemma connect_ok_inv w h w1 :
  connectToDatabase host w = (Ok h, w1) ->
  cachedDb w1 = Some h /\ readyState w1 = 1
  /\ connectCalls w1 = (connectCalls w + (if warm w then 0 else 1))%nat.
Proof.
  destruct (warm w) eqn:Hw.
  - destruct (warm_inv w Hw) as (h' & Hc & Hr).
    rewrite (connect_warm w h' Hc Hr). intros [= <- <-].
    rewrite connectCalls_emit. cbn. repeat split; [done..|lia].
  - rewrite (connect_cold w Hw).
    destruct (mongo host (MONGODB_URI host) (connectCalls w)); intros [= <- <-].
    rewrite connectCalls_connected_world. repeat split; lia.
Qed.

(** C3: a cached handle whose connection is up is returned as it is, with
    no call of the connect primitive; and whenever a call has returned a
    handle, by the cache or by connecting, the call that follows returns the
    same handle without connecting: across a cold call and the warm call
    behind it the primitive is called once. *)
Theorem cached_handle_is_reused :
  (forall w h,
      cachedDb w = Some h -> readyState w = 1 ->
      connectToDatabase host w
      = (Ok h, emit (ConsoleLog "Using cached database connection") w)
      /\ connectCalls (snd (connectToDatabase host w)) = connectCalls w)
  /\ (forall w h w1,
        connectToDatabase host w = (Ok h, w1) ->
        connectCalls w1 = (connectCalls w + (if warm w then 0 else 1))%nat
        /\ exists w2, connectToDatabase host w1 = (Ok h, w2)
                      /\ cachedDb w2 = Some h
                      /\ connectCalls w2 = connectCalls w1).
Proof.
  split.
  - intros w h Hc Hr. rewrite (connect_warm w h Hc Hr). split; [done|].
    unfold snd. rewrite connectCalls_emit. cbn. lia.
  - intros w h w1 H. destruct (connect_ok_inv w h w1 H) as (Hc & Hr & Hn).
    split; [done|]. eexists. split; [by apply connect_warm|].
    split; [done|]. rewrite connectCalls_emit. cbn. lia.
Qed.

(** C4: when the connection attempt fails, the call throws the error of the
    attempt, [cachedDb] is what it was, and the next call attempts to
    connect again. *)
Theorem failed_connection_is_not_cached w e :
  warm w = false ->
  mongo host (MONGODB_URI host) (connectCalls w) = Refused e ->
  exists w1,
    connectToDatabase host w = (Throw e, w1)
    /\ cachedDb w1 = cachedDb w
    /\ connectCalls w1 = S (connectCalls w)
    /\ connectCalls (snd (connectToDatabase host w1)) = S (connectCalls w1).
Proof.
  intros Hw He. exists (refused_world host e w).
  rewrite (connect_cold w Hw), He. split; [done|]. split; [done|].
  split; [apply connectCalls_refused_world|].
  rewrite (connect_cold _ (warm_refused_world e w)).
  generalize (refused_world host e w); intros w1.
  destruct (mongo host (MONGODB_URI host) (connectCalls w1)); unfold snd.
  - apply connectCalls_connected_world.
  - apply connectCalls_refused_world.
Qed.

(** C7: every connection attempt made by a call of [connectToDatabase] is
    configured with a server-selection timeout of 5 seconds and a socket
    timeout of 45 seconds; a call that cannot use the cache makes exactly
    one attempt, a call that can makes none. *)
Theorem connection_attempts_have_bounded_wait w :
  Forall bounded_wait (since w (snd (connectToDatabase host w)))
  /\ List.filter is_connect (since w (snd (connectToDatabase host w)))
     = (if warm w then [] else [MongooseConnect (MONGODB_URI host) connectOptions])
  /\ serverSelectionTimeoutMS connectOptions = 5 * 1000
  /\ socketTimeoutMS connectOptions = 45 * 1000.
Proof.
  destruct (warm w) eqn:Hw.
  - destruct (warm_inv w Hw) as (h & Hc & Hr).
    rewrite (connect_warm w h Hc Hr); cbn.
    erewrite since_emitted by reflexivity.
    split; [|done]. repeat constructor.
  - rewrite (connect_cold w Hw).
    destruct (mongo host _ _); cbn; (erewrite since_emitted by reflexivity);
      (split; [|done]); repeat constructor.
Qed.

End Cache.

(** ** The date format *)

Module DateFacts.
Import Date.

Lemma civil_bounds day :
  -100000000 <= day <= 100000000 ->
  let '(y, m, d) := civil day in
  -999999 <= y <= 999999 /\ 1 <= m <= 12 /\ 1 <= d <= 31.
Proof.
  intros Hday. unfold civil.
  set (z := day + 719468).
  set (era := z / 146097). set (doe := z mod 146097).
  set (yoe := (doe - doe / 1460 + doe / 36524 - doe / 146096) / 365).
  set (doy := doe - (365 * yoe + yoe / 4 - yoe / 100)).
  set (mp := (5 * doy + 2) / 153).
  assert (Hdoe : 0 <= doe <= 146096) by (subst doe; Z.div_mod_to_equations; lia).
  assert (Hera : -680 <= era <= 689) by (subst era z; Z.div_mod_to_equations; lia).
  assert (Hyoe : 0 <= yoe <= 399 /\ 0 <= doy <= 365).
  { subst doy yoe. clearbody doe. clear - Hdoe. Z.div_mod_to_equations; lia. }
  destruct Hyoe as [Hyoe Hdoy].
  assert (Hmp : 0 <= mp <= 11) by (subst mp; clearbody doy; Z.div_mod_to_equations; lia).
  assert (Hd : 1 <= doy - (153 * mp + 2) / 5 + 1 <= 31).
  { subst mp. clearbody doy. clear - Hdoy. Z.div_mod_to_equations; lia. }
  clearbody mp doy yoe era.
  destruct (mp <? 10) eqn:Hlt.
  - apply Z.ltb_lt in Hlt. destruct (mp + 3 <=? 2) eqn:Hle;
      [apply Z.leb_le in Hle|apply Z.leb_gt in Hle]; lia.
  - apply Z.ltb_ge in Hlt. destruct (mp - 9 <=? 2) eqn:Hle;
      [apply Z.leb_le in Hle|apply Z.leb_gt in Hle]; lia.
Qed.

Lemma digit_value_digit k : 0 <= k < 10 -> digit_value (digit k) = Some k.
Proof.
  intros H.
  assert (Hk : k = 0 \/ k = 1 \/ k = 2 \/ k = 3 \/ k = 4 \/ k = 5 \/ k = 6
               \/ k = 7 \/ k = 8 \/ k = 9) by lia.
  repeat destruct Hk as [->|Hk]; try subst k; reflexivity.
Qed.

Lemma digit_is_no_sign k :
  0 <= k < 10 ->
  Ascii.eqb (digit k) "+" || Ascii.eqb (digit k) "-" = false.
Proof.
  intros H.
  assert (Hk : k = 0 \/ k = 1 \/ k = 2 \/ k = 3 \/ k = 4 \/ k = 5 \/ k = 6
               \/ k = 7 \/ k = 8 \/ k = 9) by lia.
  repeat destruct Hk as [->|Hk]; try subst k; reflexivity.
Qed.

(** The leading digit of a padded number. *)
Lemma pad_front w n rest :
  pad (S w) n rest = String (digit (n / 10 ^ Z.of_nat w mod 10)) (pad w n rest).
Proof.
  revert n rest; induction w as [|w IH]; intros n rest.
  - cbn. by rewrite Z.div_1_r.
  - change (pad (S (S w)) n rest)
      with (pad (S w) (n / 10) (String (digit (n mod 10)) rest)).
    rewrite IH. cbn [pad]. f_equal. f_equal.
    rewrite Z.div_div by lia. f_equal. f_equal.
    rewrite Nat2Z.inj_succ, Z.pow_succ_r by lia. reflexivity.
Qed.

(** Reading back a padded number yields its low digits. *)
Lemma number_pad w n acc rest :
  0 <= n ->
  number w acc (pad w n rest)
  = Some (acc * 10 ^ Z.of_nat w + n mod 10 ^ Z.of_nat w, rest).
Proof.
  intros Hn. revert acc; induction w as [|w IH]; intros acc.
  - cbn. rewrite Z.mod_1_r. do 2 f_equal. lia.
  - rewrite pad_front. cbn [number].
    rewrite digit_value_digit by (apply Z.mod_pos_bound; lia).
    rewrite IH. do 2 f_equal.
    rewrite Nat2Z.inj_succ, Z.pow_succ_r by lia.
    assert (Hp : 0 < 10 ^ Z.of_nat w) by (apply Z.pow_pos_nonneg; lia).
    rewrite (Z.mul_comm 10 (10 ^ Z.of_nat w)).
    rewrite Z.rem_mul_r by lia. lia.
Qed.

Lemma number_pad_small w n rest :
  0 <= n < 10 ^ Z.of_nat w -> number w 0 (pad w n rest) = Some (n, rest).
Proof.
  intros H. rewrite number_pad by lia. rewrite Z.mod_small by lia. do 2 f_equal.
Qed.

Lemma year_year_field y rest :
  -999999 <= y <= 999999 ->
  exists v, year (year_field y rest) = Some (v, rest).
Proof.
  intros Hy. unfold year_field.
  destruct ((0 <=? y) && (y <=? 9999)) eqn:Hrange.
  - apply andb_prop in Hrange as [H0%Z.leb_le H1%Z.leb_le].
    exists y. rewrite pad_front. unfold year.
    rewrite digit_is_no_sign by (apply Z.mod_pos_bound; lia).
    rewrite <- pad_front. apply number_pad_small. cbn. lia.
  - exists (Z.abs y). unfold year.
    assert (Hs : Ascii.eqb (if y <? 0 then "-"%char else "+"%char) "+"
                 || Ascii.eqb (if y <? 0 then "-"%char else "+"%char) "-" = true)
      by (by destruct (y <? 0)).
    rewrite Hs. apply number_pad_small. cbn. lia.
Qed.

(** Every valid time value is printed in the ISO-8601 date-time form. *)
Lemma format_iso8601 t : valid t = true -> iso8601 (format t) = true.
Proof.
  unfold valid, maxTime. intros [Hlo%Z.leb_le Hhi%Z.leb_le]%andb_prop.
  unfold format, msPerDay.
  assert (Hday : -100000000 <= t / 86400000 <= 100000000)
    by (Z.div_mod_to_equations; lia).
  pose proof (civil_bounds _ Hday) as Hc.
  destruct (civil (t / 86400000)) as [[y m] d].
  destruct Hc as (Hy & Hm & Hd).
  set (ms := t mod 86400000).
  assert (Hms : 0 <= ms < 86400000) by (apply Z.mod_pos_bound; lia).
  unfold iso8601.
  edestruct (year_year_field y) as [v ->]; [lia|].
  cbn [mbind option_bind literal Ascii.eqb Bool.eqb].
  do 6 (rewrite number_pad_small
          by (first [ change (10 ^ Z.of_nat 2) with 100
                    | change (10 ^ Z.of_nat 3) with 1000 ];
              Z.div_mod_to_equations; lia);
        cbn [mbind option_bind literal Ascii.eqb Bool.eqb]).
  unfold between.
  repeat (apply andb_true_intro; split); try apply Z.leb_le;
    try reflexivity; Z.div_mod_to_equations; lia.
Qed.

End DateFacts.

(** ** Paths *)

Lemma drop_prefix_Some a b r : drop_prefix a b = Some r -> b = a +:+ r.
Proof.
  revert b; induction a as [|c a IH]; intros b; cbn.
  - by intros [= ->].
  - destruct b as [|d b]; [done|].
    destruct (Ascii.eqb c d) eqn:Hcd; [|done].
    apply Ascii.eqb_eq in Hcd as ->. intros H. by rewrite (IH b H).
Qed.

Lemma drop_prefix_lower a b r :
  drop_prefix a b = Some r -> drop_prefix (lower a) (lower b) = Some (lower r).
Proof.
  revert b; induction a as [|c a IH]; intros b; cbn.
  - by intros [= ->].
  - destruct b as [|d b]; [done|].
    destruct (Ascii.eqb c d) eqn:Hcd; [|done].
    apply Ascii.eqb_eq in Hcd as ->. intros H. cbn.
    rewrite Ascii.eqb_refl. by apply IH.
Qed.

(** A path that starts with [/api/] as written is under [/api]. *)
Lemma under_api p : starts_with "/api/" p = true -> under "/api" p = true.
Proof.
  unfold under, starts_with.
  destruct (drop_prefix "/api/" p) as [r|] eqn:H; [|done]. intros _.
  apply drop_prefix_lower in H. change (lower "/api/") with "/api/" in H.
  change (lower "/api" +:+ "/") with "/api/". by rewrite H.
Qed.

Lemma append_empty s : s +:+ EmptyString = s.
Proof.
  induction s as [|c s IH]; [done|].
  change (String c (s +:+ EmptyString) = String c s). by rewrite IH.
Qed.

Lemma route_path_inv pattern p :
  route_path pattern p = true ->
  lower p = lower pattern \/ lower p = lower pattern +:+ "/".
Proof.
  unfold route_path.
  destruct (drop_prefix (lower pattern) (lower p)) as [r|] eqn:H; [|done].
  apply drop_prefix_Some in H.
  intros [Hr|Hr]%orb_prop; apply String.eqb_eq in Hr; subst r.
  - left. by rewrite H, append_empty.
  - by right.
Qed.

(** ** Objects *)

Lemma field_map_values (f : Value -> Value) k fs :
  field k (map (fun kv => (fst kv, f (snd kv))) fs) = f <$> field k fs.
Proof.
  induction fs as [|[k' v] fs IH]; [done|]. cbn.
  by destruct (String.eqb k k').
Qed.

Lemma names_map_values (f : Value -> Value) fs :
  names (map (fun kv => (fst kv, f (snd kv))) fs) = names fs.
Proof. unfold names. rewrite map_map. by apply map_ext. Qed.

Lemma field_filter_names (p : string -> bool) k fs :
  field k (List.filter (fun kv => p (fst kv)) fs)
  = if p k then field k fs else None.
Proof.
  induction fs as [|[k' v] fs IH]; [by destruct (p k)|]. cbn.
  destruct (p k') eqn:Hp'; cbn; rewrite IH;
    destruct (String.eqb_spec k k') as [->|Hk]; try done.
  - by rewrite Hp'.
  - by rewrite Hp'.
Qed.

Lemma names_filter_incl (p : string * Value -> bool) fs k :
  In k (names (List.filter p fs)) -> In k (names fs).
Proof.
  unfold names. intros ((k' & v) & <- & Hin)%in_map_iff.
  apply List.filter_In in Hin as [Hin _]. apply in_map_iff. by exists (k', v).
Qed.

Lemma NoDup_names_filter (p : string * Value -> bool) fs :
  List.NoDup (names fs) -> List.NoDup (names (List.filter p fs)).
Proof.
  induction fs as [|[k v] fs IH]; [done|]. cbn. intros Hnd.
  apply List.NoDup_cons_iff in Hnd as [Hk Hnd].
  destruct (p (k, v)); [|by apply IH]. cbn. constructor; [|by apply IH].
  intros Hin. apply Hk. by apply (names_filter_incl p).
Qed.

(** An assignment to a new name appends the property. *)
Lemma assign_new k v fs : ~ In k (names fs) -> assign k v fs = fs ++ [(k, v)].
Proof.
  induction fs as [|[k' x] fs IH]; [done|]. cbn. intros H.
  destruct (String.eqb_spec k k') as [->|Hk]; [destruct H; by left|].
  rewrite IH; [done|]. intros Hin. apply H. by right.
Qed.

(** Members with names of their own are the properties of the object, in
    their order. *)
Lemma members_NoDup fs : List.NoDup (names fs) -> members fs = fs.
Proof.
  unfold members.
  assert (H : forall acc,
             List.NoDup (names (acc ++ fs)) ->
             fold_left (fun o kv => assign (fst kv) (snd kv) o) fs acc = acc ++ fs).
  { induction fs as [|[k v] fs IH]; intros acc Hnd; cbn.
    - by rewrite app_nil_r.
    - unfold names in *. rewrite map_app in Hnd. cbn in Hnd.
      pose proof (List.NoDup_remove_2 _ _ _ Hnd) as Hk.
      rewrite assign_new.
      + rewrite IH; rewrite <- app_assoc; [done|].
        by rewrite map_app.
      + intros Hin. apply Hk. apply in_or_app. by left. }
  intros Hnd. by apply (H []).
Qed.

(** ** The query parser *)

Lemma field_qs_merge k k' v fs :
  field k (qs_merge k' v fs)
  = if String.eqb k k'
    then Some match field k fs with
              | None => v
              | Some (VArr items) => VArr (items ++ [v])
              | Some x => VArr [x; v]
              end
    else field k fs.
Proof.
  induction fs as [|[k2 x] fs IH]; cbn [qs_merge field].
  - by destruct (String.eqb k k').
  - destruct (String.eqb k' k2) eqn:H2.
    + apply String.eqb_eq in H2 as ->. cbn [field].
      destruct (String.eqb k k2); [|done]. by destruct x.
    + cbn [field]. destruct (String.eqb k k2) eqn:Hk2; [|exact IH].
      apply String.eqb_eq in Hk2 as ->. rewrite String.eqb_sym in H2.
      by rewrite H2.
Qed.

Lemma field_qs_fold k kvs fs :
  field k (fold_left (fun fs kv => qs_merge (fst kv) (VStr (snd kv)) fs) kvs fs)
  = merged (field k fs) (occurrences k kvs).
Proof.
  revert fs; induction kvs as [|[k' v] kvs IH]; intros fs; [done|].
  cbn [fold_left]. rewrite IH, field_qs_merge. unfold occurrences.
  cbn [List.filter fst snd]. by destruct (String.eqb k k').
Qed.

Lemma merged_array items vs :
  merged (Some (VArr items)) vs = Some (VArr (items ++ map VStr vs)).
Proof.
  revert items; induction vs as [|v vs IH]; intros items; cbn.
  - by rewrite app_nil_r.
  - unfold merged in IH. rewrite IH. by rewrite <- app_assoc.
Qed.

(** With the parameters written plainly, one that occurs at least twice
    among those the parser reads is parsed into the array of its values, in
    the order of the query string. *)
Lemma repeated_parameter_is_array q k :
  plain_names q = true ->
  (2 <= length (occurrences k (parameters q)))%nat ->
  get k (qs_parse q) = Some (VArr (map VStr (occurrences k (parameters q)))).
Proof.
  intros _. unfold qs_parse, get. rewrite field_qs_fold.
  destruct (occurrences _ _) as [|v1 [|v2 vs]]; cbn [length]; try lia.
  intros _. cbn [field]. unfold merged. cbn [fold_left].
  apply (merged_array [VStr v1; VStr v2]).
Qed.

Lemma names_qs_merge k v fs :
  names (qs_merge k v fs)
  = names fs ++ (if existsb (String.eqb k) (names fs) then [] else [k]).
Proof.
  unfold names.
  induction fs as [|[k' x] fs IH]; [done|]. cbn [qs_merge map fst existsb].
  destruct (String.eqb k k') eqn:Hk; cbn [map fst orb app].
  - by rewrite app_nil_r.
  - by rewrite IH.
Qed.

Lemma textual_qs_merge k v fs :
  forallb (fun kv => textual (snd kv)) fs = true ->
  forallb (fun kv => textual (snd kv)) (qs_merge k (VStr v) fs) = true.
Proof.
  induction fs as [|[k' x] fs IH]; [done|]. cbn.
  intros [Hx Hfs]%andb_prop.
  destruct (String.eqb k k'); cbn.
  - rewrite Hfs, andb_true_r. destruct x; try done. cbn in *.
    rewrite forallb_app, Hx. done.
  - by rewrite Hx, IH.
Qed.

(** The object the parser builds from parameters written plainly: every
    property has a name of its own, which is the name of a parameter, and a
    value that is a string or an array of strings. *)
Lemma qs_parse_shape q :
  plain_names q = true ->
  exists fs,
    qs_parse q = VObj fs
    /\ List.NoDup (names fs)
    /\ (forall k, In k (names fs) -> In k (map fst (parameters q)))
    /\ forallb (fun kv => textual (snd kv)) fs = true.
Proof.
  intros _. unfold qs_parse. eexists. split; [reflexivity|].
  assert (H : forall kvs acc,
    List.NoDup (names acc) ->
    forallb (fun kv => textual (snd kv)) acc = true ->
    let fs := fold_left (fun fs kv => qs_merge (fst kv) (VStr (snd kv)) fs) kvs acc in
    List.NoDup (names fs)
    /\ (forall k, In k (names fs) -> In k (names acc) \/ In k (map fst kvs))
    /\ forallb (fun kv => textual (snd kv)) fs = true).
  { induction kvs as [|[k v] kvs IH]; intros acc Hnd Ht; cbn [fold_left fst snd].
    - repeat split; try done. by left.
    - destruct (IH (qs_merge k (VStr v) acc)) as (Hnd' & Hin' & Ht').
      + rewrite names_qs_merge.
        destruct (existsb (String.eqb k) (names acc)) eqn:Hk.
        * by rewrite app_nil_r.
        * apply NoDup_ListNoDup, NoDup_app. repeat split.
          -- by apply NoDup_ListNoDup.
          -- intros x Hx [->|[]]%list_elem_of_In. apply list_elem_of_In in Hx.
             assert (existsb (String.eqb x) (names acc) = true); [|congruence].
             apply existsb_exists. exists x. split; [done|apply String.eqb_refl].
          -- apply NoDup_singleton.
      + by apply textual_qs_merge.
      + repeat split; try done. intros x Hx.
        destruct (Hin' x Hx) as [Hacc|Hkvs]; [|by right; right].
        rewrite names_qs_merge in Hacc. apply in_app_or in Hacc as [Hacc|Hnew].
        * by left.
        * right. left. destruct (existsb _ _); [done|]. by destruct Hnew. }
  destruct (H (parameters q) []) as (Hnd & Hin & Ht); [constructor|done|].
  repeat split; try done. intros k Hk. by destruct (Hin k Hk).
Qed.

(** ** The sanitisers on the parsed query *)

Lemma sanitize_object fs :
  sanitize (VObj fs)
  = VObj (map (fun kv => (fst kv, sanitize (snd kv)))
              (List.filter (fun kv => negb (prohibited (fst kv))) fs)).
Proof.
  cbn [sanitize]. f_equal.
  induction fs as [|[k x] fs IH]; [done|]. cbn [List.filter fst].
  destruct (prohibited k); cbn [negb map fst snd]; by rewrite IH.
Qed.

Lemma sanitize_textual v : textual v = true -> sanitize v = v.
Proof.
  destruct v as [| | | | |items|]; try done. cbn. intros H. f_equal.
  induction items as [|x items IH]; [done|]. cbn in *.
  apply andb_prop in H as [Hx H]. rewrite (IH H). by destruct x.
Qed.

Lemma jsonify_textual v : textual v = true -> jsonify v = v.
Proof.
  destruct v as [| | | | |items|]; try done. cbn. intros H. f_equal.
  induction items as [|x items IH]; [done|]. cbn in *.
  apply andb_prop in H as [Hx H]. rewrite (IH H). by destruct x.
Qed.

Lemma jsonify_object fs :
  forallb (fun kv => textual (snd kv)) fs = true -> jsonify (VObj fs) = VObj fs.
Proof.
  cbn [jsonify]. intros H. f_equal.
  induction fs as [|[k x] fs IH]; [done|]. cbn in H.
  apply andb_prop in H as [Hx H]. rewrite (IH H).
  pose proof (jsonify_textual x Hx) as Hj. destruct x; try done. by rewrite Hj.
Qed.

Lemma escape_object fs :
  escape (VObj fs)
  = VObj (members (map (fun kv => (inHTMLData (fst kv), escape (snd kv))) fs)).
Proof.
  cbn [escape]. do 2 f_equal.
  induction fs as [|[k x] fs IH]; [done|]. cbn. by rewrite IH.
Qed.

Lemma inHTMLData_plain s : has "<" s = false -> inHTMLData s = s.
Proof.
  induction s as [|c s IH]; [done|]. unfold has in *. cbn [any inHTMLData].
  intros [Hc Hs]%orb_false_elim.
  rewrite (Ascii.eqb_sym c "<"), Hc. by rewrite (IH Hs).
Qed.

(** The parsed query behind the two sanitisers, when the parameters are
    written plainly: the parameters with a prohibited name are gone, and
    the values of the others are escaped. *)
Lemma query_cleaned q :
  plain_names q = true ->
  exists fs,
    qs_parse q = VObj fs
    /\ clean (sanitize (qs_parse q))
       = VObj (map (fun kv => (fst kv, escape (snd kv)))
                   (List.filter (fun kv => negb (prohibited (fst kv))) fs)).
Proof.
  intros Hplain.
  destruct (qs_parse_shape q Hplain) as (fs & Hq & Hnd & Hin & Ht).
  exists fs. split; [done|]. rewrite Hq, sanitize_object.
  set (kept := List.filter (fun kv => negb (prohibited (fst kv))) fs).
  assert (Htk : forallb (fun kv => textual (snd kv)) kept = true).
  { apply forallb_forall. intros kv [Hkv _]%List.filter_In.
    rewrite forallb_forall in Ht. by apply Ht. }
  assert (Hs : map (fun kv => (fst kv, sanitize (snd kv))) kept = kept).
  { rewrite <- (map_id kept) at 2. apply map_ext_in. intros [k v] Hkv.
    rewrite forallb_forall in Htk. cbn. by rewrite (sanitize_textual v (Htk _ Hkv)). }
  rewrite Hs. unfold clean. rewrite (jsonify_object kept Htk), escape_object.
  assert (He : map (fun kv => (inHTMLData (fst kv), escape (snd kv))) kept
               = map (fun kv => (fst kv, escape (snd kv))) kept).
  { apply map_ext_in. intros [k v] [Hkv _]%List.filter_In. cbn. f_equal.
    apply inHTMLData_plain.
    assert (Hk : In k (map fst (parameters q))).
    { apply Hin. apply in_map_iff. by exists (k, v). }
    apply in_map_iff in Hk as ((k' & v') & Hk' & Hp). cbn in Hk'. subst k'.
    unfold plain_names in Hplain. rewrite forallb_forall in Hplain.
    specialize (Hplain _ Hp). cbn in Hplain.
    apply andb_prop in Hplain as [_ Hlt]. by apply negb_true_iff in Hlt. }
  rewrite He, members_NoDup; [done|].
  rewrite names_map_values. by apply NoDup_names_filter.
Qed.

(** ** The parameter-pollution guard *)

Lemma field_put_aside_array k fs items :
  field k fs = Some (VArr items) ->
  field k (fst (put_aside fs)) = Some (last_item items)
  /\ field k (snd (put_aside fs)) = Some (VArr items).
Proof.
  induction fs as [|[k' v] fs IH]; [done|]. cbn [field].
  destruct (String.eqb k k') eqn:Hk.
  - intros [= ->]. cbn [put_aside]. destruct (put_aside fs) as [kept aside].
    cbn. by rewrite Hk.
  - intros H. specialize (IH H).
    destruct v; cbn [put_aside]; destruct (put_aside fs) as [kept aside];
      cbn in *; rewrite ?Hk; done.
Qed.

(** A parameter that is not an array is left as it is. *)
Lemma field_put_aside_single k fs v :
  field k fs = Some v -> (forall items, v <> VArr items) ->
  field k (fst (put_aside fs)) = Some v.
Proof.
  intros H Hv. induction fs as [|[k' v'] fs IH]; [done|]. cbn [field] in H.
  destruct (String.eqb k k') eqn:Hk.
  - injection H as ->.
    destruct v; cbn [put_aside]; destruct (put_aside fs) as [kept aside];
      cbn; rewrite ?Hk; try done. by destruct (Hv items).
  - specialize (IH H).
    destruct v'; cbn [put_aside]; destruct (put_aside fs) as [kept aside];
      cbn in *; rewrite ?Hk; done.
Qed.

(** The guard itself: a parameter that reaches it as an array leaves it as
    the last item of the array, and the array is put aside. *)
Lemma hpp_puts_array_aside req w k items :
  get k (query req) = Some (VArr items) ->
  exists req',
    hpp req w = (Ok (Next req'), w)
    /\ get k (query req') = Some (last_item items)
    /\ get k (queryPolluted req') = Some (VArr items).
Proof.
  intros H. exists (unpolluted req). split; [reflexivity|].
  unfold unpolluted. destruct (query req) as [| | | | | |fs] eqn:Hq; try done.
  cbn in H. destruct (field_put_aside_array k fs items H) as [Hkept Haside].
  cbn [body with_query].
  destruct (body req); try done; destruct (has_media _ _); done.
Qed.

(** ** The security pipeline *)

Lemma events_entered stages w :
  events (entered stages w) = events w ++ map Enter stages.
Proof.
  revert w; induction stages as [|s stages IH]; intros w; cbn.
  - by rewrite app_nil_r.
  - rewrite IH. cbn. by rewrite <- app_assoc.
Qed.

Lemma incoming_unpolluted req : incoming (unpolluted req) = incoming req.
Proof.
  unfold unpolluted. repeat case_match; reflexivity.
Qed.

Lemma originalUrl_unpolluted req : originalUrl (unpolluted req) = originalUrl req.
Proof.
  unfold unpolluted. repeat case_match; reflexivity.
Qed.

Lemma incoming_prepared msg : incoming (prepared msg) = msg.
Proof.
  unfold prepared. rewrite incoming_unpolluted. cbn. unfold received.
  destruct (entity msg) as [[m n [v|why]]|]; cbn;
    try destruct (is_json m || is_urlencoded m); reflexivity.
Qed.

Lemma originalUrl_prepared msg : originalUrl (prepared msg) = href (url msg).
Proof.
  unfold prepared. rewrite originalUrl_unpolluted. cbn. unfold received.
  destruct (entity msg) as [[m n [v|why]]|]; cbn;
    try destruct (is_json m || is_urlencoded m); reflexivity.
Qed.

Lemma path_prepared msg : path (prepared msg) = pathname (url msg).
Proof. unfold path. by rewrite incoming_prepared. Qed.

(** The query string Express parses for a message. *)
Lemma query_received msg :
  query (cleaned (sanitized (received msg)))
  = clean (sanitize (query (request_of msg))).
Proof.
  unfold received.
  destruct (entity msg) as [[m n [v|why]]|]; cbn;
    try destruct (is_json m || is_urlencoded m); reflexivity.
Qed.

Lemma query_unpolluted r :
  query (unpolluted r)
  = match query r with
    | VObj fs => VObj (fst (put_aside fs))
    | q => q
    end.
Proof.
  unfold unpolluted.
  destruct (query r) eqn:Hr; cbn [body with_query];
    repeat case_match; cbn [query with_body]; by rewrite ?Hr.
Qed.

Lemma queryPolluted_unpolluted r fs :
  query r = VObj fs -> queryPolluted (unpolluted r) = VObj (snd (put_aside fs)).
Proof.
  unfold unpolluted. intros ->. cbn [body with_query].
  repeat case_match; reflexivity.
Qed.

(** The query a route sees is the parsed query string, sanitised, cleaned
    and freed of repeated parameters; it does not depend on the path, the
    method or the entity. *)
Lemma query_prepared msg :
  query (prepared msg)
  = match clean (sanitize (query (request_of msg))) with
    | VObj fs => VObj (fst (put_aside fs))
    | q => q
    end.
Proof. unfold prepared. by rewrite query_unpolluted, query_received. Qed.

(** [?status=A&status=B] is [status=B] on every route: whatever the method,
    the path and the entity of the request. *)
Lemma status_collapses_on_every_route msg :
  querystring (url msg) = Some "status=A&status=B" ->
  query (prepared msg) = VObj [("status", VStr "B")].
Proof.
  intros Hq. rewrite query_prepared. cbn [query request_of]. by rewrite Hq.
Qed.

Lemma last_item_snoc items x : last_item (items ++ [x]) = x.
Proof. unfold last_item. by rewrite last_snoc. Qed.

(** C8, as the code has it.  Of the parameters the query parser reads, the
    first thousand of the query string, one that occurs more than once
    reaches the gate and the routes with the value of its last occurrence,
    and the array of its occurrences is put aside in [req.queryPolluted],
    provided the sanitiser in front of the guard lets its name through (the
    name does not start with a dollar sign and holds no dot) and the
    parameters are written plainly (no name in the bracket notation of
    [qs], none with a [<], which the filter of [xss-clean] rewrites).  The
    values are as the parser decodes them and the filter escapes them.
    There is no whitelist, so that this holds for every such parameter;
    the guard sits in front of the gate, so that it holds for every
    route. *)
Theorem pollution_guard_keeps_last_occurrence msg q k vs v :
  querystring (url msg) = Some q ->
  plain_names q = true ->
  prohibited k = false ->
  occurrences k (parameters q) = vs ++ [v] -> vs <> [] ->
  get k (query (prepared msg)) = Some (VStr (inHTMLData v))
  /\ get k (queryPolluted (prepared msg))
     = Some (VArr (map (fun x => VStr (inHTMLData x)) (vs ++ [v]))).
Proof.
  intros Hq Hplain Hk Hocc Hvs.
  destruct (query_cleaned q Hplain) as (fs & Hfs & Hclean).
  assert (Hfield : field k fs = Some (VArr (map VStr (vs ++ [v])))).
  { pose proof (repeated_parameter_is_array q k Hplain) as Hrep.
    rewrite Hocc, Hfs in Hrep. apply Hrep.
    rewrite length_app. destruct vs; [done|]. cbn. lia. }
  set (fs' := map (fun kv => (fst kv, escape (snd kv)))
                  (List.filter (fun kv => negb (prohibited (fst kv))) fs)) in *.
  assert (Hfield' : field k fs'
                    = Some (VArr (map (fun x => VStr (inHTMLData x)) (vs ++ [v])))).
  { unfold fs'.
    rewrite field_map_values, (field_filter_names (fun k => negb (prohibited k))).
    rewrite Hk, Hfield.
    cbn. by rewrite map_map. }
  destruct (field_put_aside_array k fs' _ Hfield') as [Hkept Haside].
  assert (Hr : query (cleaned (sanitized (received msg))) = VObj fs').
  { rewrite query_received. cbn [query request_of]. by rewrite Hq. }
  unfold prepared. split.
  - rewrite query_unpolluted, Hr. cbn [get]. rewrite Hkept.
    rewrite map_app. cbn [map]. by rewrite last_item_snoc.
  - by rewrite (queryPolluted_unpolluted _ fs' Hr).
Qed.

(** ** Percent escapes in a path *)

Lemma decodes_plain_char c s :
  Ascii.eqb c "%" = false -> decodes (String c s) = decodes s.
Proof.
  unfold decodes, decodeURIComponent. cbn [decode]. intros ->.
  by destruct (decode [] Outside s).
Qed.

Lemma lower_ascii_percent c : lower_ascii c = "%"%char -> c = "%"%char.
Proof.
  destruct c as [[] [] [] [] [] [] [] []]; vm_compute; intros H;
    first [reflexivity|discriminate H].
Qed.

Lemma has_percent_lower s : has "%" (lower s) = has "%" s.
Proof.
  unfold has. induction s as [|c s IH]; [done|]. cbn [lower any]. rewrite IH.
  f_equal. destruct (Ascii.eqb_spec "%" c) as [<-|Hc]; [done|].
  apply Ascii.eqb_neq. intros H. apply Hc. symmetry. by apply lower_ascii_percent.
Qed.

(** A text without a percent sign decodes. *)
Lemma plain_decodes s : has "%" s = false -> decodes s = true.
Proof.
  unfold has. induction s as [|c s IH]; [done|]. cbn [any].
  intros [Hc Hs]%orb_false_elim. rewrite decodes_plain_char; [by apply IH|].
  by rewrite Ascii.eqb_sym.
Qed.

(** Behind a prefix without a percent sign, matched letter case apart, a
    path decodes when the whole path does. *)
Lemma decodes_skip a p r :
  drop_prefix a (lower p) = Some r -> has "%" a = false ->
  decodes (skip (String.length a) p) = decodes p.
Proof.
  unfold has. revert p; induction a as [|x a IH]; intros p; [by destruct p|].
  destruct p as [|c p]; [done|]. cbn [lower drop_prefix any String.length skip].
  destruct (Ascii.eqb_spec x (lower_ascii c)) as [->|]; [|done].
  intros Hr [Hc Ha]%orb_false_elim. rewrite (IH p Hr Ha).
  symmetry. apply decodes_plain_char. apply Ascii.eqb_neq. intros ->.
  by vm_compute in Hc.
Qed.

Lemma decodes_star p :
  under "/api" p = true -> decodes (star "/api" p) = decodes p.
Proof.
  unfold under, starts_with, star.
  destruct (drop_prefix (lower "/api" +:+ "/") (lower p)) as [r|] eqn:Hr; [|done].
  intros _. by apply (decodes_skip "/api/" p r).
Qed.

(** The path of a route without parameters decodes. *)
Lemma route_path_decodes pattern p :
  route_path pattern p = true -> has "%" (lower pattern) = false ->
  decodes p = true.
Proof.
  intros Hp Hpat. apply plain_decodes. rewrite <- has_percent_lower.
  destruct (route_path_inv _ _ Hp) as [->| ->]; [done|].
  unfold has in *. clear Hp.
  induction (lower pattern) as [|c s IH]; [done|].
  change (String c s +:+ "/") with (String c (s +:+ "/")). cbn [any] in *.
  apply orb_false_elim in Hpat as [Hc Hs]. by rewrite Hc, IH.
Qed.

Section Pipeline.

Variable host : Host.

(** *** One step of the dispatch *)

Lemma dispatch_skip layer rest pending req w :
  matches layer req = Missed ->
  dispatch (layer :: rest) pending req w = dispatch rest pending req w.
Proof. intros H. cbn [dispatch]. by rewrite H. Qed.

Lemma dispatch_failed layer rest e req w :
  matches layer req = Failed e ->
  dispatch (layer :: rest) None req w = dispatch rest (Some e) req w.
Proof. intros H. cbn [dispatch]. by rewrite H. Qed.

Lemma dispatch_pending layer f rest e req w :
  callback layer = Middleware f ->
  dispatch (layer :: rest) (Some e) req w = dispatch rest (Some e) req w.
Proof. intros Hc. cbn [dispatch]. rewrite Hc. by destruct (matches layer req). Qed.

Lemma dispatch_run layer f rest req w :
  matches layer req = Matched -> callback layer = Middleware f ->
  dispatch (layer :: rest) None req w
  = match f req (emit (Enter (stage layer)) w) with
    | (Ok (Next req'), w') => dispatch rest None req' w'
    | (Ok (NextErr e req'), w') => dispatch rest (Some e) req' w'
    | (Ok (Respond res), w') => (res, w')
    | (Throw e, w') => dispatch rest (Some e) req w'
    end.
Proof. intros Ha Hc. cbn [dispatch]. by rewrite Ha, Hc. Qed.

Lemma dispatch_error layer f rest e req w :
  matches layer req = Matched -> callback layer = ErrorMiddleware f ->
  dispatch (layer :: rest) (Some e) req w
  = match f e req (emit (Enter (stage layer)) w) with
    | (Ok (Next req'), w') => dispatch rest None req' w'
    | (Ok (NextErr e' req'), w') => dispatch rest (Some e') req' w'
    | (Ok (Respond res), w') => (res, w')
    | (Throw e', w') => dispatch rest (Some e') req w'
    end.
Proof. intros Ha Hc. cbn [dispatch]. by rewrite Ha, Hc. Qed.

Lemma dispatch_no_error layer f rest req w :
  matches layer req = Matched -> callback layer = ErrorMiddleware f ->
  dispatch (layer :: rest) None req w = dispatch rest None req w.
Proof. intros Ha Hc. cbn [dispatch]. by rewrite Ha, Hc. Qed.

Lemma dispatch_pending_all stack rest e req w :
  Forall (fun layer => exists f, callback layer = Middleware f) stack ->
  dispatch (stack ++ rest) (Some e) req w = dispatch rest (Some e) req w.
Proof.
  induction 1 as [|layer stack [f Hf] _ IH]; [done|].
  rewrite <- app_comm_cons. by rewrite (dispatch_pending _ f).
Qed.

(** With an error pending, everything up to the error sink is passed over. *)
Lemma dispatch_to_error_sink pre e req w :
  Forall (fun layer => exists f, callback layer = Middleware f) pre ->
  dispatch (pre ++ use ConnectionGate (connectionGate host) :: router host)
           (Some e) req w
  = (errorHandler host e req, emit (Enter ErrorSink) w).
Proof.
  intros Hpre.
  rewrite (dispatch_pending_all pre) by exact Hpre.
  rewrite (dispatch_pending _ (connectionGate host)) by reflexivity.
  unfold router.
  rewrite (dispatch_pending _ (health host)) by reflexivity.
  rewrite dispatch_pending_all.
  2:{ generalize routeTable. intros t.
      induction t; constructor; [by eexists|done]. }
  rewrite (dispatch_pending _ notFound) by reflexivity.
  by rewrite (dispatch_error _ (errorSink host)) by reflexivity.
Qed.

(** *** The pipeline *)

Lemma options_all_matches s f req :
  method (incoming req) <> OPTIONS ->
  matches (options_all s f) req
  = if decodes (path req) then Missed else Failed (decode_failure (path req)).
Proof.
  intros Hm. cbn. unfold decode_param.
  destruct (decodes (path req)); [|done]. by destruct (method (incoming req)).
Qed.

(** A request that is not a preflight passes the first stage; the match of
    the preflight route decodes its path, and leaves an error pending when
    the path does not decode. *)
Lemma pipeline_head msg w rest :
  method msg <> OPTIONS ->
  dispatch (securityPipeline ++ rest) None (request_of msg) w
  = dispatch (skipn 2 securityPipeline ++ rest)
             (if decodes (pathname (url msg)) then None
              else Some (decode_failure (pathname (url msg))))
             (request_of msg) (emit (Enter Cors) w).
Proof.
  intros Hm. unfold securityPipeline. rewrite <- !app_comm_cons.
  rewrite (dispatch_run _ (cors corsOptions)) by reflexivity.
  assert (Hc : cors corsOptions (request_of msg) (emit (Enter (stage (use Cors (cors corsOptions)))) w)
               = (Ok (Next (request_of msg)), emit (Enter Cors) w)).
  { unfold cors. cbn [incoming request_of]. by destruct (method msg). }
  rewrite Hc. cbn [skipn app].
  pose proof (options_all_matches Preflight (cors corsDefaults) (request_of msg) Hm)
    as Ho.
  change (path (request_of msg)) with (pathname (url msg)) in Ho.
  destruct (decodes (pathname (url msg))).
  - by rewrite dispatch_skip.
  - by rewrite (dispatch_failed _ _ _ _ _ Ho).
Qed.

(** A request that is not a preflight, whose path decodes and whose entity
    parses goes through the whole pipeline and arrives at what is
    registered behind it. *)
Lemma pipeline_passes msg w rest :
  method msg <> OPTIONS -> decodes (pathname (url msg)) = true ->
  parses msg = true ->
  dispatch (securityPipeline ++ rest) None (request_of msg) w
  = dispatch rest None (prepared msg) (entered pipelineStages w).
Proof.
  intros Hm Hd Hp. rewrite (pipeline_head msg w rest Hm), Hd.
  unfold parses in Hp. unfold prepared, received.
  destruct msg as [m u e]; cbn [entity] in *.
  destruct e as [[mt n [v|why]]|]; cbn in *;
    [ destruct mt; cbn in *;
      rewrite ?andb_true_r in Hp;
      try (apply Z.leb_le in Hp; apply Z.ltb_ge in Hp; rewrite Hp);
      reflexivity
    | destruct mt; cbn in *; rewrite ?andb_false_r in Hp;
      try discriminate; reflexivity
    | reflexivity ].
Qed.

(** A request whose path does not decode is handed to the error sink with
    the error of the decoding. *)
Lemma app_undecoded msg w :
  method msg <> OPTIONS -> decodes (pathname (url msg)) = false ->
  app host msg w
  = (errorHandler host (decode_failure (pathname (url msg))) (request_of msg),
     entered undecoded_stages w).
Proof.
  intros Hm Hd. unfold app, stack.
  rewrite (pipeline_head msg w _ Hm), Hd.
  rewrite dispatch_to_error_sink; [done|]. repeat econstructor.
Qed.

(** A request whose entity a body parser refuses is handed to the error
    sink with the error of the parser. *)
Lemma app_refused msg w ent :
  method msg <> OPTIONS -> decodes (pathname (url msg)) = true ->
  entity msg = Some ent -> parses msg = false ->
  exists e req,
    app host msg w = (errorHandler host e req, entered (refusal_stages ent) w)
    /\ status e = Some (if 10485760 <? contentLength ent then 413 else 400)
    /\ incoming req = msg.
Proof.
  intros Hm Hd He Hp. unfold app, stack.
  rewrite (pipeline_head msg w _ Hm), Hd. unfold parses in Hp.
  destruct msg as [m u o]; cbn [entity method] in *. subst o.
  destruct ent as [mt n d]. cbn in Hp.
  assert (Hpre : Forall (fun layer => exists f, callback layer = Middleware f)
                 [use MongoSanitize mongoSanitize; use XssClean xss;
                  use Hpp hpp; use Compression compression])
    by (repeat econstructor).
  assert (Hpre' : Forall (fun layer => exists f, callback layer = Middleware f)
                 [use UrlencodedParser (express_urlencoded bodyLimit);
                  use MongoSanitize mongoSanitize; use XssClean xss;
                  use Hpp hpp; use Compression compression])
    by (repeat econstructor).
  assert (Hn : (n <=? bodyLimit) = negb (bodyLimit <? n)).
  { destruct (Z.ltb_spec bodyLimit n), (Z.leb_spec n bodyLimit); cbn; lia. }
  rewrite Hn in Hp. clear Hn.
  change (10485760 <? contentLength {| mediaType := mt; contentLength := n;
                                        decoding := d |})
    with (bodyLimit <? n).
  cbn [skipn securityPipeline app].
  destruct mt; cbn in Hp; [| |done];
     repeat (rewrite <- app_comm_cons;
             erewrite dispatch_run by reflexivity;
             cbn [helmet express_json express_urlencoded
                  body_parser request_of incoming method entity
                  body_parsed mediaType is_json is_urlencoded
                  contentLength decoding with_body stage use ret
                  truthy body]);
     (destruct (bodyLimit <? n);
      [|destruct d as [v|why]; [discriminate Hp|]]);
     unfold ret; cbn beta iota;
     rewrite dispatch_to_error_sink by assumption;
     eexists _, _; (split; [reflexivity|]); split; reflexivity.
Qed.

(** *** The gate *)

Lemma connectionGate_spec req w :
  connectionGate host req w
  = match connectToDatabase host w with
    | (Ok _, w2) => (Ok (Next req), w2)
    | (Throw e, w2) =>
        (Ok (Respond (connection_failure host e)),
         emit (ConsoleError "Database connection middleware error:" e) w2)
    end.
Proof.
  unfold connectionGate, try_catch, mbind, M_bind, bind.
  destruct (connectToDatabase host w) as [[h|e] w2]; [reflexivity|].
  unfold connection_failure, json, tell, ret.
  destruct (development host); reflexivity.
Qed.

Lemma gate_step req w rest :
  dispatch (use ConnectionGate (connectionGate host) :: rest) None req w
  = match connectToDatabase host (emit (Enter ConnectionGate) w) with
    | (Ok _, w2) => dispatch rest None req w2
    | (Throw e, w2) =>
        (connection_failure host e,
         emit (ConsoleError "Database connection middleware error:" e) w2)
    end.
Proof.
  rewrite (dispatch_run _ (connectionGate host)) by reflexivity.
  rewrite connectionGate_spec. cbn [stage use].
  by destruct (connectToDatabase host _) as [[h|e] w2].
Qed.

(** *** The router *)

Lemma dispatch_unmounted table rest req w :
  forallb (fun prefix => negb (mounted_at prefix (path req))) table = true ->
  dispatch (map (mount host) table ++ rest) None req w = dispatch rest None req w.
Proof.
  induction table as [|prefix table IH]; [done|].
  cbn [forallb map]. intros [Hp Ht]%andb_prop. apply negb_true_iff in Hp.
  rewrite <- app_comm_cons, dispatch_skip
    by (cbn [matches mount use_at]; by rewrite Hp). by apply IH.
Qed.

Lemma use_under_api_matches s f req :
  under "/api" (path req) = true -> decodes (path req) = true ->
  matches (use_under "/api" s f) req = Matched.
Proof.
  intros Hunder Hd. cbn [matches use_under]. unfold decode_param.
  by rewrite Hunder, (decodes_star _ Hunder), Hd.
Qed.

Lemma router_not_found req w :
  route_method GET (method (incoming req)) && route_path "/api/health" (path req)
  = false ->
  unrouted (path req) = true ->
  under "/api" (path req) = true ->
  decodes (path req) = true ->
  dispatch (router host) None req w
  = (not_found (originalUrl req), emit (Enter NotFound) w).
Proof.
  intros Hh Hu Hunder Hd. unfold router.
  rewrite dispatch_skip by (cbn [matches get_route]; by rewrite Hh).
  rewrite dispatch_unmounted by exact Hu.
  rewrite (dispatch_run _ notFound)
    by (by apply use_under_api_matches || reflexivity).
  reflexivity.
Qed.

Lemma health_spec req w :
  Date.valid (clock host) = true ->
  health host req w
  = (Ok (Respond (health_payload host (Date.format (clock host)) (readyState w))), w).
Proof.
  intros Hv. unfold health, Date.toISOString, mbind, M_bind, bind, read.
  rewrite Hv. reflexivity.
Qed.

Lemma router_health req w :
  route_method GET (method (incoming req)) && route_path "/api/health" (path req)
  = true ->
  Date.valid (clock host) = true ->
  dispatch (router host) None req w
  = (health_payload host (Date.format (clock host)) (readyState w),
     emit (Enter Health) w).
Proof.
  intros Hh Hv. unfold router.
  rewrite (dispatch_run _ (health host)) by ((cbn [matches get_route]; by rewrite Hh) || reflexivity).
  by rewrite health_spec.
Qed.


(** *** The application, stage by stage *)

Lemma app_reaches_gate msg w :
  method msg <> OPTIONS -> decodes (pathname (url msg)) = true ->
  parses msg = true ->
  app host msg w
  = match connectToDatabase host (at_gate w) with
    | (Ok _, w2) => dispatch (router host) None (prepared msg) w2
    | (Throw e, w2) =>
        (connection_failure host e,
         emit (ConsoleError "Database connection middleware error:" e) w2)
    end.
Proof.
  intros Hm Hd Hp. unfold app, stack.
  rewrite pipeline_passes by assumption. apply gate_step.
Qed.

Lemma gated_true evs : gated true evs = true.
Proof.
  induction evs as [|ev evs IH]; [done|].
  destruct ev as [| | | |s]; cbn; rewrite ?orb_true_r; try done.
  by destruct s.
Qed.

Lemma gated_no_route seen evs :
  existsb enters_route evs = false -> gated seen evs = true.
Proof.
  induction evs as [|ev evs IH]; [done|]. cbn [existsb].
  intros [Hev Hevs]%orb_false_elim.
  destruct ev as [| | | |s]; cbn in *; rewrite ?IH; try done.
  destruct s; cbn in *; rewrite ?IH, ?gated_true; done.
Qed.

(** What a call of [connectToDatabase] adds to the history: console and
    mongoose events only. *)
Lemma connect_events w :
  exists evs,
    events (snd (connectToDatabase host w)) = events w ++ evs
    /\ existsb enters_route evs = false.
Proof.
  destruct (warm w) eqn:Hw.
  - destruct (warm_inv w Hw) as (h & Hc & Hr).
    rewrite (connect_warm host w h Hc Hr). by eexists.
  - rewrite (connect_cold host w Hw).
    destruct (mongo host _ _); by eexists.
Qed.

Lemma connect_throw_inv w e w2 :
  connectToDatabase host w = (Throw e, w2) ->
  warm w = false /\ w2 = refused_world host e w
  /\ mongo host (MONGODB_URI host) (connectCalls w) = Refused e.
Proof.
  destruct (warm w) eqn:Hw.
  - destruct (warm_inv w Hw) as (h & Hc & Hr).
    by rewrite (connect_warm host w h Hc Hr).
  - rewrite (connect_cold host w Hw).
    destruct (mongo host _ _); [done|]. by intros [= <- <-].
Qed.

Lemma dispatch_stateless stack :
  Forall stateless stack ->
  forall pending req w,
    exists stages, snd (dispatch stack pending req w) = entered stages w.
Proof.
  induction 1 as [|layer stack Hl _ IH]; intros pending req w.
  - by exists [].
  - cbn [dispatch]. destruct (matches layer req); [|apply IH..].
    unfold stateless in Hl.
    destruct (callback layer) as [f|f], pending as [e|]; try apply IH.
    + specialize (Hl req (emit (Enter (stage layer)) w)).
      destruct (f req _) as [[[req'|e' req'|res]|e'] w']; cbn in Hl; subst w';
        try (destruct (IH None req' (emit (Enter (stage layer)) w)) as [st Hst];
             exists (stage layer :: st); exact Hst);
        try (destruct (IH (Some e') req' (emit (Enter (stage layer)) w)) as [st Hst];
             exists (stage layer :: st); exact Hst);
        try (destruct (IH (Some e') req (emit (Enter (stage layer)) w)) as [st Hst];
             exists (stage layer :: st); exact Hst).
      by exists [stage layer].
    + specialize (Hl e req (emit (Enter (stage layer)) w)).
      destruct (f e req _) as [[[req'|e' req'|res]|e'] w']; cbn in Hl; subst w';
        try (destruct (IH None req' (emit (Enter (stage layer)) w)) as [st Hst];
             exists (stage layer :: st); exact Hst);
        try (destruct (IH (Some e') req' (emit (Enter (stage layer)) w)) as [st Hst];
             exists (stage layer :: st); exact Hst);
        try (destruct (IH (Some e') req (emit (Enter (stage layer)) w)) as [st Hst];
             exists (stage layer :: st); exact Hst).
      by exists [stage layer].
Qed.

Lemma router_stateless : Forall stateless (router host).
Proof.
  unfold router. constructor.
  { intros req w. unfold health, Date.toISOString, mbind, M_bind, bind, read.
    by destruct (Date.valid _). }
  apply Forall_app. split.
  - generalize routeTable. intros table.
    induction table as [|prefix table IH]; constructor; [|exact IH].
    intros req w. cbn. unfold delegate. by destruct (routeGroup _ _ _).
  - repeat constructor.
Qed.


Lemma health_path_unrouted p :
  route_path "/api/health" p = true ->
  unrouted p = true /\ under "/api" p = true.
Proof.
  intros [H|H]%route_path_inv;
    unfold unrouted, mounted_at, under, starts_with; rewrite H; by vm_compute.
Qed.

Lemma events_at_gate w :
  events (at_gate w) = events w ++ map Enter (pipelineStages ++ [ConnectionGate]).
Proof.
  unfold at_gate. cbn [emit events]. rewrite events_entered, map_app.
  by rewrite <- app_assoc.
Qed.

Lemma app_preflight msg w :
  method msg = OPTIONS ->
  app host msg w
  = ({| statusCode := 200; responseBody := EmptyBody |}, emit (Enter Cors) w).
Proof.
  intros Hm. unfold app, stack, securityPipeline. rewrite <- app_comm_cons.
  rewrite (dispatch_run _ (cors corsOptions)) by reflexivity.
  unfold cors. cbn [incoming request_of]. by rewrite Hm.
Qed.

(** C5: a request with method OPTIONS is answered by the first stage, with
    status 200 and an empty body; no later stage is entered, neither the
    gate nor a route handler, and the connection is not touched. *)
Theorem preflight_is_answered_at_once msg w :
  method msg = OPTIONS ->
  app host msg w
  = ({| statusCode := 200; responseBody := EmptyBody |}, emit (Enter Cors) w)
  /\ since w (snd (app host msg w)) = [Enter Cors]
  /\ connectCalls (snd (app host msg w)) = connectCalls w.
Proof.
  intros Hm. rewrite (app_preflight msg w Hm). split; [done|]. split.
  - by apply since_emitted.
  - unfold snd. rewrite connectCalls_emit. cbn. lia.
Qed.

Lemma gated_behind_gate msg w :
  method msg <> OPTIONS -> decodes (pathname (url msg)) = true ->
  parses msg = true ->
  gated false (since w (snd (app host msg w))) = true
  /\ forall e w2,
       connectToDatabase host (at_gate w) = (Throw e, w2) ->
       existsb enters_route (since w (snd (app host msg w))) = false.
Proof.
  intros Hm Hd Hp. rewrite (app_reaches_gate msg w Hm Hd Hp).
  destruct (connectToDatabase host (at_gate w)) as [[h|e] w2] eqn:Hc.
  - split; [|done].
    destruct (connect_events (at_gate w)) as (cevs & Hev & _).
    rewrite Hc in Hev. cbn [snd] in Hev.
    destruct (dispatch_stateless (router host) router_stateless
                None (prepared msg) w2) as [stages ->].
    erewrite since_emitted; last first.
    { rewrite events_entered, Hev, events_at_gate, <- !app_assoc. reflexivity. }
    cbn. apply gated_true.
  - apply connect_throw_inv in Hc as (_ & -> & _).
    assert (Hs : since w (emit (ConsoleError
                    "Database connection middleware error:" e)
                    (refused_world host e (at_gate w)))
                 = map Enter (pipelineStages ++ [ConnectionGate])
                   ++ [ConsoleLog "Creating new database connection...";
                       MongooseSet "strictQuery" false;
                       MongooseConnect (MONGODB_URI host) connectOptions;
                       ConsoleError "MongoDB connection error:" e;
                       ConsoleError "Database connection middleware error:" e]).
    { apply since_emitted. cbn [emit refused_world events].
      rewrite events_at_gate, <- !app_assoc. reflexivity. }
    cbn [snd]. rewrite Hs. split; [reflexivity|]. by intros e' w2' [= <- <-].
Qed.

(** C1, as the code has it: a request that reaches the gate (its method is
    not OPTIONS, the percent escapes of its path decode and its entity goes
    through the body parsers; GET /api/health is one) makes the gate call
    [connectToDatabase] before any route handler is entered.  When the call
    returns, what is registered behind the gate runs in the world the call
    has left.  When it throws, the response is the 500 envelope with the
    fixed message, the [error] field is there exactly in development mode,
    and no route handler is entered. *)
Theorem gate_runs_before_routes msg w :
  method msg <> OPTIONS -> decodes (pathname (url msg)) = true ->
  parses msg = true ->
  gated false (since w (snd (app host msg w))) = true
  /\ match connectToDatabase host (at_gate w) with
     | (Ok _, w2) =>
         app host msg w = dispatch (router host) None (prepared msg) w2
     | (Throw e, w2) =>
         app host msg w
         = ({| statusCode := 500;
               responseBody :=
                 JsonBody (VObj ([("status", VStr "error");
                                  ("message", VStr "Database connection failed")]
                                 ++ if bool_decide (process_env host !! "NODE_ENV"
                                                    = Some "development")
                                    then [("error", VStr (message e))]
                                    else [])) |},
            emit (ConsoleError "Database connection middleware error:" e) w2)
         /\ existsb enters_route (since w (snd (app host msg w))) = false
     end.
Proof.
  intros Hm Hd Hp. destruct (gated_behind_gate msg w Hm Hd Hp) as [Hg Hnone].
  split; [exact Hg|]. pose proof (app_reaches_gate msg w Hm Hd Hp) as Happ.
  destruct (connectToDatabase host (at_gate w)) as [[h|e] w2] eqn:Hc.
  - exact Happ.
  - split; [exact Happ|]. by apply (Hnone e w2).
Qed.

(** X12: the ordering holds for every request: no route handler is entered
    unless the gate has been entered before it in the same request; the
    requests that do not reach the gate enter no route handler at all. *)
Lemma routes_are_gated msg w :
  gated false (since w (snd (app host msg w))) = true.
Proof.
  destruct (decide (method msg = OPTIONS)) as [Hm|Hm].
  { rewrite (app_preflight msg w Hm). cbn [snd].
    by erewrite since_emitted by reflexivity. }
  destruct (decodes (pathname (url msg))) eqn:Hd.
  2:{ rewrite (app_undecoded msg w Hm Hd). cbn [snd]. apply gated_no_route.
      by erewrite since_emitted by apply events_entered. }
  destruct (parses msg) eqn:Hp.
  { by apply gated_behind_gate. }
  destruct (entity msg) as [ent|] eqn:He.
  2:{ unfold parses in Hp. by rewrite He in Hp. }
  destruct (app_refused msg w ent Hm Hd He Hp) as (e & req & -> & _).
  cbn [snd]. apply gated_no_route.
  erewrite since_emitted by apply events_entered.
  unfold refusal_stages. by destruct (is_json (mediaType ent)).
Qed.

(** C6, as the code has it: a request that reaches the router (its method
    is not OPTIONS, the percent escapes of its path decode, its entity goes
    through the body parsers and the gate's connection call returns), whose
    path starts with [/api/], is served by no entry of the route table and
    is not for the health route, is answered with status 404 and the body
    [{status: 'error', message: 'API route <url> not found'}], where
    [<url>] is the request URL as received: the path, and the query string
    when there is one. *)
Theorem unmatched_api_route_is_not_found msg w h w2 :
  method msg <> OPTIONS -> decodes (pathname (url msg)) = true ->
  parses msg = true ->
  connectToDatabase host (at_gate w) = (Ok h, w2) ->
  starts_with "/api/" (pathname (url msg)) = true ->
  unrouted (pathname (url msg)) = true ->
  for_health msg = false ->
  app host msg w
  = ({| statusCode := 404;
        responseBody :=
          JsonBody (VObj [("status", VStr "error");
                          ("message",
                           VStr ("API route " +:+ href (url msg)
                                 +:+ " not found"))]) |},
     emit (Enter NotFound) w2).
Proof.
  intros Hm Hd Hp Hc Hapi Hu Hh.
  rewrite (app_reaches_gate msg w Hm Hd Hp), Hc.
  rewrite router_not_found; rewrite ?path_prepared, ?incoming_prepared.
  - by rewrite originalUrl_prepared.
  - exact Hh.
  - exact Hu.
  - by apply under_api.
  - exact Hd.
Qed.

(** C9, as the code has it: the health route answers GET and, as every
    GET route of Express, HEAD.  A request for [/api/health] with another
    method (OPTIONS apart, which the first stage answers) that reaches the
    router is served by no entry of the route table and gets the 404
    envelope. *)
Theorem health_route_is_for_get_and_head msg w h w2 :
  route_path "/api/health" (pathname (url msg)) = true ->
  method msg <> GET -> method msg <> HEAD -> method msg <> OPTIONS ->
  parses msg = true ->
  connectToDatabase host (at_gate w) = (Ok h, w2) ->
  unrouted (pathname (url msg)) = true
  /\ app host msg w
     = ({| statusCode := 404;
           responseBody :=
             JsonBody (VObj [("status", VStr "error");
                             ("message",
                              VStr ("API route " +:+ href (url msg)
                                    +:+ " not found"))]) |},
        emit (Enter NotFound) w2).
Proof.
  intros Hpath Hget Hhead Hm Hp Hc.
  destruct (health_path_unrouted _ Hpath) as [Hu Hunder]. split; [done|].
  assert (Hd : decodes (pathname (url msg)) = true)
    by (by apply (route_path_decodes "/api/health")).
  rewrite (app_reaches_gate msg w Hm Hd Hp), Hc.
  rewrite router_not_found; rewrite ?path_prepared, ?incoming_prepared; try done.
  - by rewrite originalUrl_prepared.
  - destruct (method msg); done.
Qed.

(** C2, as the code has it: a GET request for [/api/health] that passes
    the gate is answered with status 200 and a body with [status:
    'success'], the message, an ISO-8601 [timestamp], the [environment] and
    a field named [mongoStatus], which is ['connected'] when mongoose's
    connection state is connected and ['disconnected'] otherwise. *)
Theorem health_check_reports_connection msg w h w2 :
  method msg = GET ->
  route_path "/api/health" (pathname (url msg)) = true ->
  parses msg = true ->
  connectToDatabase host (at_gate w) = (Ok h, w2) ->
  Date.valid (clock host) = true ->
  exists timestamp,
    app host msg w
    = ({| statusCode := 200;
          responseBody :=
            JsonBody (VObj [
              ("status", VStr "success");
              ("message", VStr "Hospital Management API is running");
              ("timestamp", VStr timestamp);
              ("environment", VStr (environment host));
              ("mongoStatus",
               VStr (if Z.eqb (readyState w2) 1
                     then "connected" else "disconnected"))]) |},
       emit (Enter Health) w2)
    /\ Date.iso8601 timestamp = true.
Proof.
  intros Hget Hpath Hp Hc Hv. exists (Date.format (clock host)).
  split; [|by apply DateFacts.format_iso8601].
  assert (Hd : decodes (pathname (url msg)) = true)
    by (by apply (route_path_decodes "/api/health")).
  rewrite app_reaches_gate, Hc by (done || by rewrite Hget).
  rewrite router_health; rewrite ?path_prepared, ?incoming_prepared; try done.
  by rewrite Hget, Hpath.
Qed.

(** Behind the gate the connection is up, so that the health payload of
    such a request always says ['connected']. *)
Lemma health_behind_gate_is_connected w h w2 :
  connectToDatabase host (at_gate w) = (Ok h, w2) -> readyState w2 = 1.
Proof. intros Hc. by destruct (connect_ok_inv host _ _ _ Hc) as (_ & ? & _). Qed.

(** The handler itself reports whatever state it finds. *)
Lemma health_reports_ready_state req w :
  Date.valid (clock host) = true ->
  exists res v,
    health host req w = (Ok (Respond res), w)
    /\ responseBody res = JsonBody v
    /\ get "mongoStatus" v
       = Some (VStr (if Z.eqb (readyState w) 1
                     then "connected" else "disconnected")).
Proof.
  intros Hv. rewrite (health_spec req w Hv). by eexists _, _.
Qed.


(** Only the exact value turns the development mode on. *)
Lemma development_iff :
  development host = true <-> process_env host !! "NODE_ENV" = Some "development".
Proof. unfold development. apply bool_decide_eq_true. Qed.

(** C10: with [NODE_ENV] unset, the [environment] field of the health
    payload is ['production'], and the gate's failure response has no
    [error] field. *)
Theorem environment_defaults_to_production req w :
  process_env host !! "NODE_ENV" = None ->
  Date.valid (clock host) = true ->
  (exists v,
      health host req w
      = (Ok (Respond {| statusCode := 200; responseBody := JsonBody v |}), w)
      /\ get "environment" v = Some (VStr "production"))
  /\ (forall e w2,
        connectToDatabase host w = (Throw e, w2) ->
        exists v w3,
          connectionGate host req w
          = (Ok (Respond {| statusCode := 500; responseBody := JsonBody v |}), w3)
          /\ get "error" v = None).
Proof.
  intros Henv Hv. split.
  - rewrite (health_spec req w Hv). eexists. split; [reflexivity|].
    unfold environment. rewrite Henv. reflexivity.
  - intros e w2 Hc. rewrite connectionGate_spec, Hc.
    eexists _, _. split; [reflexivity|].
    unfold development. rewrite Henv. reflexivity.
Qed.

End Pipeline.

(** * Worked requests *)

(** The targets of the requests below are in origin form: [parseurl] reads
    them as [request] has them. *)
Lemma sample_targets_are_in_origin_form :
  Forall (fun target => parseurl target = Some (origin target))
    ["/api"; "/api/beds"; "/api/beds/7?status=A&ward=3&status=B";
     "/api/health"; "/api/patients"; "/api/patients/%zz"; "/api/patients/42";
     "/api/patients/42?status=A&status=B"; "/api/patients?$gt=1&$gt=2";
     "/api/patients?name=Anna+K&name=Ben%20L";
     "/api/patients?status=A&status=B"; "/api/unknown"; "/api/unknown?page=2"].
Proof. repeat constructor. Qed.

(** ** The connection cache *)

Lemma cached_handle_is_reused_witness :
  let h := {| session := 0 |} in
  let w1 := connected_world clinic h cold in
  (connectToDatabase clinic w1
   = (Ok h, emit (ConsoleLog "Using cached database connection") w1)
   /\ connectCalls (snd (connectToDatabase clinic w1)) = connectCalls w1)
  /\ (connectCalls w1 = 1%nat
      /\ exists w2, connectToDatabase clinic w1 = (Ok h, w2)
                    /\ cachedDb w2 = Some h
                    /\ connectCalls w2 = connectCalls w1).
Proof.
  intros h w1. destruct (cached_handle_is_reused clinic) as [Hwarm Hnext].
  split.
  - apply (Hwarm w1 h); reflexivity.
  - apply (Hnext cold h w1). reflexivity.
Defined.

Lemma failed_connection_is_not_cached_witness :
  warm cold = false
  /\ exists w1,
       connectToDatabase outage cold = (Throw refusal, w1)
       /\ cachedDb w1 = cachedDb cold
       /\ connectCalls w1 = S (connectCalls cold)
       /\ connectCalls (snd (connectToDatabase outage w1)) = S (connectCalls w1).
Proof.
  split; [reflexivity|].
  apply (failed_connection_is_not_cached outage cold refusal); reflexivity.
Defined.

(** ** The pipeline *)

Lemma preflight_is_answered_at_once_witness :
  app clinic (request OPTIONS "/api/patients") cold
  = ({| statusCode := 200; responseBody := EmptyBody |}, emit (Enter Cors) cold)
  /\ since cold (snd (app clinic (request OPTIONS "/api/patients") cold))
     = [Enter Cors]
  /\ connectCalls (snd (app clinic (request OPTIONS "/api/patients") cold))
     = connectCalls cold.
Proof.
  apply (preflight_is_answered_at_once clinic (request OPTIONS "/api/patients") cold).
  reflexivity.
Defined.

(** The health check of a host whose store is down, in development mode. *)
Lemma gate_runs_before_routes_witness :
  gated false (since cold (snd (app outage (request GET "/api/health") cold)))
  = true
  /\ fst (app outage (request GET "/api/health") cold)
     = {| statusCode := 500;
          responseBody :=
            JsonBody (VObj [("status", VStr "error");
                            ("message", VStr "Database connection failed");
                            ("error", VStr "connect ECONNREFUSED")]) |}.
Proof.
  destruct (gate_runs_before_routes outage (request GET "/api/health") cold)
    as [Hgated Hgate]; [discriminate|reflexivity|reflexivity|].
  split; [exact Hgated|].
  assert (Hdown : connectToDatabase outage (at_gate cold)
                  = (Throw refusal, refused_world outage refusal (at_gate cold)))
    by reflexivity.
  rewrite Hdown in Hgate. destruct Hgate as [Happ _]. rewrite Happ. reflexivity.
Defined.

(** Against C1 read for every request: a preflight never comes to the gate,
    and [connectToDatabase] is not called. *)
Lemma preflight_does_not_reach_the_gate :
  let w' := snd (app clinic (request OPTIONS "/api/health") cold) in
  since cold w' = [Enter Cors]
  /\ existsb (fun ev => match ev with
                        | Enter ConnectionGate => true
                        | _ => false
                        end) (since cold w') = false
  /\ connectCalls w' = 0%nat
  /\ cachedDb w' = None.
Proof. vm_compute. repeat split. Qed.

(** Nor does a request whose entity the JSON parser refuses: it is handed
    to the error handler. *)
Lemma garbled_request_does_not_reach_the_gate :
  app clinic garbled cold
  = ({| statusCode := 400;
        responseBody :=
          JsonBody (VObj [("status", VStr "error");
                          ("message", VStr "Unexpected end of JSON input")]) |},
     entered [Cors; Helmet; JsonParser; ErrorSink] cold).
Proof. vm_compute. reflexivity. Qed.

(** ** The health route *)

Lemma health_check_reports_connection_witness :
  exists timestamp,
    app clinic (request GET "/api/health") cold
    = ({| statusCode := 200;
          responseBody :=
            JsonBody (VObj [
              ("status", VStr "success");
              ("message", VStr "Hospital Management API is running");
              ("timestamp", VStr timestamp);
              ("environment", VStr (environment clinic));
              ("mongoStatus", VStr "connected")]) |},
       emit (Enter Health)
         (connected_world clinic {| session := 0 |} (at_gate cold)))
    /\ Date.iso8601 timestamp = true.
Proof.
  apply (health_check_reports_connection clinic (request GET "/api/health") cold
           {| session := 0 |}
           (connected_world clinic {| session := 0 |} (at_gate cold)));
    reflexivity.
Defined.

(** Against C2 as the specification names the field: the payload has no
    [backingStoreStatus]; the connection state is under [mongoStatus]. *)
Lemma health_payload_has_no_backingStoreStatus :
  exists v,
    fst (app clinic (request GET "/api/health") cold)
    = {| statusCode := 200; responseBody := JsonBody v |}
    /\ get "backingStoreStatus" v = None
    /\ get "mongoStatus" v = Some (VStr "connected")
    /\ get "timestamp" v = Some (VStr "2026-11-02T00:00:00.123Z").
Proof. eexists. vm_compute. repeat split. Qed.

Lemma health_route_is_for_get_and_head_witness :
  unrouted "/api/health" = true
  /\ app clinic (request POST "/api/health") cold
     = ({| statusCode := 404;
           responseBody :=
             JsonBody (VObj [("status", VStr "error");
                             ("message", VStr "API route /api/health not found")]) |},
        emit (Enter NotFound)
          (connected_world clinic {| session := 0 |} (at_gate cold))).
Proof.
  apply (health_route_is_for_get_and_head clinic (request POST "/api/health") cold
           {| session := 0 |}
           (connected_world clinic {| session := 0 |} (at_gate cold)));
    (reflexivity || discriminate).
Defined.

(** Against C9 read for every method but GET and OPTIONS: HEAD is answered
    by the health handler, not by the 404 responder. *)
Lemma head_request_gets_the_health_payload :
  exists v,
    fst (app clinic (request HEAD "/api/health") cold)
    = {| statusCode := 200; responseBody := JsonBody v |}
    /\ get "status" v = Some (VStr "success")
    /\ since cold (snd (app clinic (request HEAD "/api/health") cold))
       = map Enter (pipelineStages ++ [ConnectionGate])
         ++ [ConsoleLog "Creating new database connection...";
             MongooseSet "strictQuery" false;
             MongooseConnect (MONGODB_URI clinic) connectOptions;
             ConsoleLog "MongoDB Connected Successfully";
             Enter Health].
Proof. eexists. vm_compute. repeat split. Qed.

(** ** The 404 responder *)

Lemma unmatched_api_route_is_not_found_witness :
  app clinic (request GET "/api/unknown?page=2") cold
  = ({| statusCode := 404;
        responseBody :=
          JsonBody (VObj [("status", VStr "error");
                          ("message",
                           VStr "API route /api/unknown?page=2 not found")]) |},
     emit (Enter NotFound)
       (connected_world clinic {| session := 0 |} (at_gate cold))).
Proof.
  apply (unmatched_api_route_is_not_found clinic
           (request GET "/api/unknown?page=2") cold {| session := 0 |}
           (connected_world clinic {| session := 0 |} (at_gate cold)));
    (reflexivity || discriminate).
Defined.

(** Against C6 as the specification words it.  The message carries the URL
    with its query string, not the path; a preflight for an unknown path is
    answered with 200; and while the store is down the answer is the gate's
    500. *)
Lemma not_found_message_is_not_the_path :
  let msg := request GET "/api/unknown?page=2" in
  parseurl "/api/unknown?page=2" = Some (url msg)
  /\ pathname (url msg) = "/api/unknown"
  /\ starts_with "/api/" (pathname (url msg)) = true
  /\ unrouted (pathname (url msg)) = true
  /\ for_health msg = false
  /\ fst (app clinic msg cold)
     <> {| statusCode := 404;
           responseBody :=
             JsonBody (VObj [("status", VStr "error");
                             ("message",
                              VStr ("API route " +:+ pathname (url msg)
                                    +:+ " not found"))]) |}
  /\ statusCode (fst (app clinic (request OPTIONS "/api/unknown") cold)) = 200
  /\ statusCode (fst (app outage (request GET "/api/unknown") cold)) = 500.
Proof. vm_compute. repeat split. discriminate. Qed.

(** ** The environment flag *)

Lemma environment_defaults_to_production_witness :
  process_env clinic !! "NODE_ENV" = None
  /\ (exists v,
         health clinic (request_of (request GET "/api/health")) cold
         = (Ok (Respond {| statusCode := 200; responseBody := JsonBody v |}), cold)
         /\ get "environment" v = Some (VStr "production")).
Proof.
  split; [reflexivity|].
  apply (environment_defaults_to_production clinic
           (request_of (request GET "/api/health")) cold); reflexivity.
Defined.

(** ** The parameter-pollution guard *)

Lemma pollution_guard_keeps_last_occurrence_witness :
  let msg := request GET "/api/patients?status=A&status=B" in
  get "status" (query (prepared msg)) = Some (VStr "B")
  /\ get "status" (queryPolluted (prepared msg))
     = Some (VArr [VStr "A"; VStr "B"]).
Proof.
  intros msg.
  apply (pollution_guard_keeps_last_occurrence msg "status=A&status=B"
           "status" ["A"] "B"); (reflexivity || discriminate).
Defined.

(** The same query string through the whole pipeline, as a route sees it;
    the values are decoded by the parser. *)
Lemma status_collapses_to_last :
  query (prepared (request GET "/api/patients?status=A&status=B"))
  = VObj [("status", VStr "B")]
  /\ query (prepared (request DELETE "/api/beds/7?status=A&ward=3&status=B"))
     = VObj [("status", VStr "B"); ("ward", VStr "3")]
  /\ query (prepared (request GET "/api/patients?name=Anna+K&name=Ben%20L"))
     = VObj [("name", VStr "Ben L")].
Proof. repeat split; reflexivity. Qed.

(** Against C8 read for every repeated parameter.  A parameter whose name
    starts with a dollar sign is deleted by the sanitiser in front of the
    guard, so that nothing of it is retained; and of a parameter whose last
    occurrence stands behind the thousandth part of the query string, the
    parser reads the earlier occurrences only. *)
Lemma repeated_parameter_is_not_always_retained :
  (let msg := request GET "/api/patients?$gt=1&$gt=2" in
   parseurl "/api/patients?$gt=1&$gt=2" = Some (url msg)
   /\ occurrences "$gt" (parameters "$gt=1&$gt=2") = ["1"; "2"]
   /\ get "$gt" (query (prepared msg)) = None
   /\ query (prepared msg) = VObj [])
  /\ (let q := "a=1&" +:+ padded 999 "a=2" in
      let msg := {| method := GET;
                    url := {| href := "/api/patients?" +:+ q;
                              pathname := "/api/patients";
                              querystring := Some q |};
                    entity := None |} in
      parseurl ("/api/patients?" +:+ q) = Some (url msg)
      /\ length (split "&" q) = 1001%nat
      /\ last (split "&" q) = Some "a=2"
      /\ get "a" (query (prepared msg)) = Some (VStr "1")).
Proof. vm_compute. repeat split. Qed.

(** * Further properties *)

Section Further.

Variable host : Host.

(** ** What a request leaves behind *)

Lemma cachedDb_entered stages w : cachedDb (entered stages w) = cachedDb w.
Proof. revert w; induction stages as [|s stages IH]; intros w; cbn; [done|by rewrite IH]. Qed.

Lemma readyState_entered stages w : readyState (entered stages w) = readyState w.
Proof. revert w; induction stages as [|s stages IH]; intros w; cbn; [done|by rewrite IH]. Qed.

Lemma warm_entered stages w : warm (entered stages w) = warm w.
Proof. unfold warm. by rewrite cachedDb_entered, readyState_entered. Qed.

Lemma connectCalls_entered stages w :
  connectCalls (entered stages w) = connectCalls w.
Proof.
  revert w; induction stages as [|s stages IH]; intros w; cbn; [done|].
  rewrite IH, connectCalls_emit. cbn. lia.
Qed.

Lemma warm_at_gate w : warm (at_gate w) = warm w.
Proof. apply (warm_entered (pipelineStages ++ [ConnectionGate])). Qed.

Lemma connectCalls_at_gate w : connectCalls (at_gate w) = connectCalls w.
Proof. apply (connectCalls_entered (pipelineStages ++ [ConnectionGate])). Qed.

Lemma no_route_entered stages w :
  forallb (fun s => negb (is_route s)) stages = true ->
  existsb enters_route (since w (entered stages w)) = false.
Proof.
  intros H. erewrite since_emitted by apply events_entered.
  induction stages as [|s stages IH]; [done|].
  cbn in *. apply andb_prop in H as [Hs H].
  apply negb_true_iff in Hs. rewrite Hs. by apply IH.
Qed.

(** The three ways a request can go: it is answered ahead of the gate (a
    preflight, a path that does not decode, an entity a body parser
    refuses), the gate fails to connect, or the gate lets it through to the
    router. *)
Lemma app_world msg w :
  (exists stages,
      snd (app host msg w) = entered stages w
      /\ existsb enters_route (since w (snd (app host msg w))) = false)
  \/ (exists e,
        warm w = false
        /\ mongo host (MONGODB_URI host) (connectCalls w) = Refused e
        /\ snd (app host msg w)
           = emit (ConsoleError "Database connection middleware error:" e)
               (refused_world host e (at_gate w))
        /\ existsb enters_route (since w (snd (app host msg w))) = false)
  \/ (exists h w2 stages,
        connectToDatabase host (at_gate w) = (Ok h, w2)
        /\ snd (app host msg w) = entered stages w2).
Proof.
  destruct (decide (method msg = OPTIONS)) as [Hm|Hm].
  { left. exists [Cors]. rewrite (app_preflight host msg w Hm). split; [done|].
    by apply (no_route_entered [Cors]). }
  destruct (decodes (pathname (url msg))) eqn:Hd.
  2:{ left. exists undecoded_stages. rewrite (app_undecoded host msg w Hm Hd).
      split; [done|]. by apply no_route_entered. }
  destruct (parses msg) eqn:Hp.
  - right. pose proof (gated_behind_gate host msg w Hm Hd Hp) as [_ Hnone].
    rewrite (app_reaches_gate host msg w Hm Hd Hp) in *.
    destruct (connectToDatabase host (at_gate w)) as [[h|e] w2] eqn:Hc.
    + right.
      destruct (dispatch_stateless (router host) (router_stateless host)
                  None (prepared msg) w2) as [stages Hst].
      by exists h, w2, stages.
    + left. exists e. specialize (Hnone e w2 eq_refl).
      apply connect_throw_inv in Hc as (Hw & -> & He).
      rewrite warm_at_gate in Hw. rewrite connectCalls_at_gate in He. done.
  - left. destruct (entity msg) as [ent|] eqn:He.
    2:{ unfold parses in Hp. by rewrite He in Hp. }
    destruct (app_refused host msg w ent Hm Hd He Hp) as (e & req & -> & _ & _).
    exists (refusal_stages ent). split; [done|].
    apply no_route_entered. unfold refusal_stages.
    by destruct (is_json (mediaType ent)).
Qed.

(** A warm process serves a request without touching the connection. *)
Lemma app_warm msg w :
  warm w = true ->
  warm (snd (app host msg w)) = true
  /\ cachedDb (snd (app host msg w)) = cachedDb w
  /\ connectCalls (snd (app host msg w)) = connectCalls w.
Proof.
  intros Hw.
  destruct (app_world msg w)
    as [(stages & -> & _)|[(e & Hcold & _)|(h & w2 & stages & Hc & ->)]].
  - by rewrite warm_entered, cachedDb_entered, connectCalls_entered.
  - congruence.
  - rewrite warm_entered, cachedDb_entered, connectCalls_entered.
    rewrite <- warm_at_gate in Hw.
    destruct (warm_inv _ Hw) as (h' & Hc' & Hr').
    rewrite (connect_warm host _ h' Hc' Hr') in Hc. injection Hc as <- <-.
    rewrite connectCalls_emit, connectCalls_at_gate. cbn.
    split; [exact Hw|]. split; [apply (cachedDb_entered (pipelineStages ++ [ConnectionGate]))|lia].
Qed.

Lemma fold_left_step {A B} (f : A -> B -> A) x l a :
  fold_left f (x :: l) a = fold_left f l (f a x).
Proof. reflexivity. Qed.

Lemma serve_nil w : serve host [] w = w.
Proof. reflexivity. Qed.

Lemma serve_cons msg msgs w :
  serve host (msg :: msgs) w = serve host msgs (snd (app host msg w)).
Proof. unfold serve. rewrite fold_left_step. reflexivity. Qed.

(** X1: serving one request calls the connect primitive at most once, and
    not at all when the cache is warm: there is no retry inside a request. *)
Theorem request_connects_at_most_once msg w :
  (connectCalls (snd (app host msg w))
   <= connectCalls w + (if warm w then 0 else 1))%nat.
Proof.
  destruct (warm w) eqn:Hw.
  - destruct (app_warm msg w Hw) as (_ & _ & ->). lia.
  - destruct (app_world msg w)
      as [(stages & -> & _)|[(e & _ & _ & -> & _)|(h & w2 & stages & Hc & ->)]].
    + rewrite connectCalls_entered. lia.
    + rewrite connectCalls_emit, connectCalls_refused_world, connectCalls_at_gate.
      cbn. lia.
    + rewrite connectCalls_entered.
      destruct (connect_ok_inv host _ _ _ Hc) as (_ & _ & ->).
      rewrite connectCalls_at_gate. destruct (warm (at_gate w)); lia.
Qed.

(** X2: a route handler (the health route, a route group, the 404
    responder) only runs with the connection up: when a request has entered
    one, a handle is cached and mongoose is connected. *)
Theorem routes_run_connected msg w :
  existsb enters_route (since w (snd (app host msg w))) = true ->
  warm (snd (app host msg w)) = true.
Proof.
  intros Hroute.
  destruct (app_world msg w)
    as [(stages & _ & Hno)|[(e & _ & _ & _ & Hno)|(h & w2 & stages & Hc & ->)]];
    try congruence.
  rewrite warm_entered.
  destruct (connect_ok_inv host _ _ _ Hc) as (Hcached & Hready & _).
  unfold warm. by rewrite Hcached, Hready.
Qed.

(** X3: a process whose cache is warm stays so over any sequence of
    requests, keeps its handle and never calls the connect primitive, as
    long as nothing but the gateway changes mongoose's connection state. *)
Theorem warm_process_never_reconnects msgs w :
  warm w = true ->
  warm (serve host msgs w) = true
  /\ cachedDb (serve host msgs w) = cachedDb w
  /\ connectCalls (serve host msgs w) = connectCalls w.
Proof.
  revert w; induction msgs as [|msg msgs IH]; intros w Hw.
  { by rewrite serve_nil, Hw. }
  destruct (app_warm msg w Hw) as (Hw' & Hc' & Hn').
  destruct (IH _ Hw') as (? & ? & ?).
  rewrite serve_cons. repeat split; congruence.
Qed.

(** With the store accepting, a request that has to connect leaves the
    cache warm: calls made and calls still due do not grow together. *)
Lemma app_settles msg w :
  (forall n, exists h, mongo host (MONGODB_URI host) n = Accepted h) ->
  (connectCalls (snd (app host msg w))
   + (if warm (snd (app host msg w)) then 0 else 1)
   <= connectCalls w + (if warm w then 0 else 1))%nat.
Proof.
  intros Hup. destruct (warm w) eqn:Hw.
  - destruct (app_warm msg w Hw) as (-> & _ & ->). lia.
  - destruct (app_world msg w)
      as [(stages & -> & _)|[(e & _ & He & _)|(h & w2 & stages & Hc & ->)]].
    + rewrite warm_entered, connectCalls_entered, Hw. lia.
    + destruct (Hup (connectCalls w)) as [h Hh]. congruence.
    + rewrite warm_entered, connectCalls_entered.
      destruct (connect_ok_inv host _ _ _ Hc) as (Hcached & Hready & ->).
      assert (Hw2 : warm w2 = true) by (unfold warm; by rewrite Hcached, Hready).
      rewrite Hw2, connectCalls_at_gate, warm_at_gate, Hw. lia.
Qed.

Lemma live_cons h hs w : live host (h :: hs) w = live host hs (happen host w h).
Proof. unfold live. by rewrite fold_left_step. Qed.

Lemma happen_arrives msg w : happen host w (Arrives msg) = snd (app host msg w).
Proof. reflexivity. Qed.

Lemma connectCalls_turn state w :
  connectCalls (happen host w (ConnectionTurns state)) = connectCalls w.
Proof. reflexivity. Qed.

(** X4: while the store accepts connections, a process that serves its
    requests one after the other connects at most once, and once more for
    every change of the connection state that comes from outside the
    gateway (a connection that drops, say); with no such change it
    connects at most once over any sequence of requests, and never when it
    starts warm. *)
Theorem reachable_store_connects_once hs w :
  (forall n, exists h, mongo host (MONGODB_URI host) n = Accepted h) ->
  (connectCalls (live host hs w)
   <= connectCalls w + (if warm w then 0 else 1) + turns hs)%nat.
Proof.
  intros Hup.
  assert (H : forall hs w,
             (connectCalls (live host hs w)
              + (if warm (live host hs w) then 0 else 1)
              <= connectCalls w + (if warm w then 0 else 1) + turns hs)%nat).
  { clear hs w. induction hs as [|h hs IH]; intros w.
    - unfold live, turns. cbn [fold_left List.filter length]. lia.
    - rewrite live_cons. specialize (IH (happen host w h)).
      destruct h as [msg|state].
      + rewrite happen_arrives in *.
        change (turns (Arrives msg :: hs)) with (turns hs).
        pose proof (app_settles msg w Hup). lia.
      + rewrite connectCalls_turn in IH.
        change (turns (ConnectionTurns state :: hs)) with (S (turns hs)).
        destruct (warm (happen host w (ConnectionTurns state))), (warm w); lia. }
  specialize (H hs w). destruct (warm (live host hs w)); lia.
Qed.

(** X5: an entity for one of the body parsers that is longer than 10 MiB
    (10485760 bytes), or malformed, never reaches the gate or a route
    handler: the parser raises a 413 (too long) or a 400 (malformed), the
    error handler answers, and no connection is attempted.  The request is
    one the parsers get to see: it is not a preflight and its path
    decodes. *)
Theorem refused_entity_goes_to_error_handler msg w ent :
  method msg <> OPTIONS -> decodes (pathname (url msg)) = true ->
  entity msg = Some ent ->
  is_json (mediaType ent) || is_urlencoded (mediaType ent) = true ->
  10485760 < contentLength ent \/ (exists why, decoding ent = Malformed why) ->
  exists e req,
    app host msg w = (errorHandler host e req, entered (refusal_stages ent) w)
    /\ status e = Some (if 10485760 <? contentLength ent then 413 else 400)
    /\ incoming req = msg
    /\ connectCalls (snd (app host msg w)) = connectCalls w
    /\ existsb enters_route (since w (snd (app host msg w))) = false.
Proof.
  intros Hm Hd He Hmt Hbad.
  assert (Hp : parses msg = false).
  { unfold parses. rewrite He, Hmt. destruct Hbad as [Hlong|[why Hwhy]].
    - apply andb_false_iff. left. apply Z.leb_gt. exact Hlong.
    - rewrite Hwhy. apply andb_false_r. }
  destruct (app_refused host msg w ent Hm Hd He Hp) as (e & req & Happ & Hst & Hreq).
  exists e, req. rewrite Happ. repeat split; try done.
  - apply connectCalls_entered.
  - apply no_route_entered. unfold refusal_stages.
    by destruct (is_json (mediaType ent)).
Qed.

(** X13: a request that is not a preflight and whose path holds a percent
    escape that does not decode never reaches the body parsers, the gate or
    a route handler: matching the path against the preflight route throws
    a 400, the error handler answers, and no connection is attempted. *)
Theorem undecodable_path_goes_to_error_handler msg w :
  method msg <> OPTIONS -> decodes (pathname (url msg)) = false ->
  exists e,
    app host msg w
    = (errorHandler host e (request_of msg), entered [Cors; ErrorSink] w)
    /\ status e = Some 400
    /\ connectCalls (snd (app host msg w)) = connectCalls w
    /\ existsb enters_route (since w (snd (app host msg w))) = false.
Proof.
  intros Hm Hd. exists (decode_failure (pathname (url msg))).
  rewrite (app_undecoded host msg w Hm Hd). repeat split.
  - apply (connectCalls_entered undecoded_stages).
  - by apply (no_route_entered undecoded_stages).
Qed.

(** ** A stale handle *)

(** X6: a cached handle whose connection is no longer up is not handed out:
    the call connects again and, when the store accepts, returns and caches
    the new handle in place of the old one. *)
Theorem stale_handle_is_replaced w old h :
  cachedDb w = Some old -> readyState w <> 1 ->
  mongo host (MONGODB_URI host) (connectCalls w) = Accepted h ->
  exists w1,
    connectToDatabase host w = (Ok h, w1)
    /\ cachedDb w1 = Some h
    /\ readyState w1 = 1
    /\ connectCalls w1 = S (connectCalls w).
Proof.
  intros Hc Hr Hup.
  assert (Hw : warm w = false).
  { unfold warm. rewrite Hc. by apply Z.eqb_neq. }
  exists (connected_world host h w). rewrite (connect_cold host w Hw), Hup.
  repeat split. apply connectCalls_connected_world.
Qed.

(** ** The route table *)

Lemma mounted_at_inv a p :
  mounted_at a p = true ->
  exists r, lower p = lower a +:+ r
            /\ (r = EmptyString \/ exists r', r = String "/" r').
Proof.
  unfold mounted_at.
  destruct (drop_prefix (lower a) (lower p)) as [r|] eqn:H; [|done].
  apply drop_prefix_Some in H. intros Hr. exists r. split; [done|].
  destruct r as [|c r']; [by left|]. right. exists r'.
  apply Ascii.eqb_eq in Hr. by subst c.
Qed.

Lemma mounted_at_lower b p q :
  lower p = q ->
  mounted_at b p
  = match drop_prefix (lower b) q with
    | Some EmptyString => true
    | Some (String c _) => Ascii.eqb c "/"
    | None => false
    end.
Proof. intros <-. reflexivity. Qed.

(** On a path an entry is mounted on, that entry is the only one. *)
Lemma mounted_entries a p :
  In a routeTable -> mounted_at a p = true ->
  List.filter (fun b => mounted_at b p) routeTable = [a]
  /\ under "/api" p = true.
Proof.
  intros Ha (r & Hp & Hr)%mounted_at_inv.
  assert (Hf : List.filter (fun b => mounted_at b p) routeTable
               = List.filter
                   (fun b => match drop_prefix (lower b) (lower a +:+ r) with
                             | Some EmptyString => true
                             | Some (String c _) => Ascii.eqb c "/"
                             | None => false
                             end) routeTable).
  { apply List.filter_ext. intros b. by apply mounted_at_lower. }
  rewrite Hf. unfold under. rewrite Hp. clear Hf Hp p.
  unfold routeTable in Ha. cbn [In] in Ha.
  repeat (destruct Ha as [<-|Ha];
          [destruct Hr as [->|[r' ->]]; by vm_compute|]).
  done.
Qed.

(** X7: the mount paths of the route table do not overlap: a path is
    served by at most one route group. *)
Theorem mount_paths_do_not_overlap a b p :
  In a routeTable -> In b routeTable ->
  mounted_at a p = true -> mounted_at b p = true ->
  a = b.
Proof.
  intros Ha Hb Hpa Hpb.
  destruct (mounted_entries a p Ha Hpa) as [Hf _].
  assert (Hin : In b (List.filter (fun b => mounted_at b p) routeTable))
    by (apply List.filter_In; by split).
  rewrite Hf in Hin. destruct Hin as [->|[]]. reflexivity.
Qed.

Lemma routeTable_NoDup : NoDup routeTable.
Proof. apply (bool_decide_unpack _). by vm_compute. Qed.

(** The one entry mounted on the path of a request is the one the request
    is handed to. *)
Lemma dispatch_delegate table rest req w a :
  NoDup table -> In a table ->
  (forall b, In b table -> mounted_at b (path req) = true -> b = a) ->
  mounted_at a (path req) = true ->
  dispatch (map (mount host) table ++ rest) None req w
  = match routeGroup host a req with
    | Handled res => (res, emit (Enter (RouteGroup a)) w)
    | Fallthrough => dispatch rest None req (emit (Enter (RouteGroup a)) w)
    | Raised e => dispatch rest (Some e) req (emit (Enter (RouteGroup a)) w)
    end.
Proof.
  induction table as [|b table IH]; intros Hnd Hin Huniq Hm; [destruct Hin|].
  apply NoDup_cons in Hnd as [Hb Hnd]. cbn [map]. rewrite <- app_comm_cons.
  destruct (decide (b = a)) as [->|Hne].
  - rewrite (dispatch_run _ (delegate host a))
      by ((cbn [matches mount use_at]; by rewrite Hm) || reflexivity).
    cbn [stage mount use_at]. unfold delegate.
    destruct (routeGroup host a req) as [res| |e]; unfold ret; [done| |].
    + apply dispatch_unmounted. apply forallb_forall. intros b' Hb'.
      destruct (mounted_at b' (path req)) eqn:Hb'm; [|done].
      assert (b' = a) by (apply Huniq; [by right|done]).
      subst b'. destruct Hb. by apply list_elem_of_In.
    + apply dispatch_pending_all.
      clear. induction table; constructor; [by eexists|done].
  - rewrite dispatch_skip.
    + apply IH; try done.
      * destruct Hin as [Heq|Hin]; [by destruct Hne|done].
      * intros b' Hb'. apply Huniq. by right.
    + cbn [matches mount use_at].
      destruct (mounted_at b (path req)) eqn:Hbm; [|done].
      destruct Hne. apply Huniq; [by left|done].
Qed.

Lemma router_delegate req w a :
  In a routeTable -> mounted_at a (path req) = true ->
  decodes (path req) = true ->
  dispatch (router host) None req w
  = match routeGroup host a req with
    | Handled res => (res, emit (Enter (RouteGroup a)) w)
    | Fallthrough =>
        (not_found (originalUrl req),
         emit (Enter NotFound) (emit (Enter (RouteGroup a)) w))
    | Raised e =>
        (errorHandler host e req,
         emit (Enter ErrorSink) (emit (Enter (RouteGroup a)) w))
    end.
Proof.
  intros Ha Hmount Hd.
  destruct (mounted_entries a _ Ha Hmount) as [Hf Hunder]. unfold router.
  rewrite dispatch_skip.
  2:{ cbn [matches get_route].
      destruct (route_path "/api/health" (path req)) eqn:Hh;
        [|by rewrite andb_false_r].
      destruct (health_path_unrouted _ Hh) as [Hu _].
      unfold unrouted in Hu. rewrite forallb_forall in Hu.
      specialize (Hu a Ha). by rewrite Hmount in Hu. }
  rewrite (dispatch_delegate routeTable _ _ _ a routeTable_NoDup Ha); [|
    |exact Hmount].
  2:{ intros b Hb Hbm.
      assert (Hin : In b (List.filter (fun b => mounted_at b (path req))
                            routeTable))
        by (apply List.filter_In; by split).
      rewrite Hf in Hin. by destruct Hin as [->|[]]. }
  destruct (routeGroup host a req) as [res| |e]; [reflexivity| |].
  - by rewrite (dispatch_run _ notFound)
      by (by apply use_under_api_matches || reflexivity).
  - rewrite (dispatch_pending _ notFound) by reflexivity.
    by rewrite (dispatch_error _ (errorSink host)) by reflexivity.
Qed.

(** X8: a request that reaches the router (it is not a preflight, its path
    decodes, its entity parses and the gate connects) on a path one of the
    route groups is mounted on is handed to that group, and to that group
    alone.
    The group's response is the response; when the group passes the request
    on, the answer is the 404 envelope; when it raises an error, the answer
    is the error handler's. *)
Theorem mounted_request_is_delegated msg w h w2 a :
  method msg <> OPTIONS -> decodes (pathname (url msg)) = true ->
  parses msg = true ->
  connectToDatabase host (at_gate w) = (Ok h, w2) ->
  In a routeTable -> mounted_at a (pathname (url msg)) = true ->
  app host msg w
  = match routeGroup host a (prepared msg) with
    | Handled res => (res, emit (Enter (RouteGroup a)) w2)
    | Fallthrough =>
        ({| statusCode := 404;
            responseBody :=
              JsonBody (VObj [("status", VStr "error");
                              ("message",
                               VStr ("API route " +:+ href (url msg)
                                     +:+ " not found"))]) |},
         emit (Enter NotFound) (emit (Enter (RouteGroup a)) w2))
    | Raised e =>
        (errorHandler host e (prepared msg),
         emit (Enter ErrorSink) (emit (Enter (RouteGroup a)) w2))
    end.
Proof.
  intros Hm Hd Hp Hc Ha Hmount.
  rewrite (app_reaches_gate host msg w Hm Hd Hp), Hc.
  rewrite (router_delegate _ _ a Ha) by (by rewrite path_prepared).
  by rewrite originalUrl_prepared.
Qed.

(** X9: the JSON 404 envelope is for the paths under [/api/] only.  A
    request that reaches the router (it is not a preflight, its path
    decodes, its entity parses and the gate connects) on any other path,
    the bare [/api] among them, matches no layer and gets the default 404
    of Express.  The path is the one Express routes on, the pathname of the
    parsed target. *)
Theorem outside_api_gets_default_404 msg w h w2 :
  method msg <> OPTIONS -> decodes (pathname (url msg)) = true ->
  parses msg = true ->
  connectToDatabase host (at_gate w) = (Ok h, w2) ->
  under "/api" (pathname (url msg)) = false ->
  app host msg w = ({| statusCode := 404; responseBody := DefaultPage |}, w2).
Proof.
  intros Hm Hd Hp Hc Hout.
  rewrite (app_reaches_gate host msg w Hm Hd Hp), Hc. unfold router.
  rewrite <- (path_prepared msg) in Hout.
  rewrite dispatch_skip.
  2:{ cbn [matches get_route].
      destruct (route_path "/api/health" (path (prepared msg))) eqn:Hh;
        [|by rewrite andb_false_r].
      destruct (health_path_unrouted _ Hh) as [_ Hu]. congruence. }
  rewrite dispatch_unmounted.
  2:{ apply forallb_forall. intros a Ha.
      destruct (mounted_at a (path (prepared msg))) eqn:Ham; [|done].
      destruct (mounted_entries a _ Ha Ham) as [_ Hu]. congruence. }
  rewrite dispatch_skip by (cbn [matches use_under]; by rewrite Hout).
  by rewrite (dispatch_no_error _ (errorSink host)) by reflexivity.
Qed.

End Further.

(** ** What the sanitisers leave of a request *)

(** Induction on values, through arrays and objects. *)
Lemma Value_induction (P : Value -> Prop) :
  P VUndefined -> P VNull -> (forall b, P (VBool b)) -> (forall n, P (VNum n)) ->
  (forall s, P (VStr s)) ->
  (forall items, Forall P items -> P (VArr items)) ->
  (forall fs, Forall (fun kv => P (snd kv)) fs -> P (VObj fs)) ->
  forall v, P v.
Proof.
  intros Hu Hn Hb Hz Hs Ha Ho. fix IH 1. intros [| |b|n|s|items|fs].
  - exact Hu.
  - exact Hn.
  - apply Hb.
  - apply Hz.
  - apply Hs.
  - apply Ha. induction items as [|x items IHitems]; constructor.
    + apply IH.
    + exact IHitems.
  - apply Ho. induction fs as [|[k x] fs IHfs]; constructor.
    + apply IH.
    + exact IHfs.
Qed.

Lemma amp_lt s :
  "&lt;" +:+ s = String "&" (String "l" (String "t" (String ";" s))).
Proof. reflexivity. Qed.

(** Escaping does not make a key prohibited, nor a prohibited key
    acceptable. *)
Lemma prohibited_inHTMLData k : prohibited (inHTMLData k) = prohibited k.
Proof.
  assert (Hdot : forall k, match snd (cut "." (inHTMLData k)) with
                           | Some _ => true | None => false end
                           = match snd (cut "." k) with
                             | Some _ => true | None => false end).
  { clear. induction k as [|c k IH]; [done|]. cbn [inHTMLData].
    destruct (Ascii.eqb c "<") eqn:Hc.
    - apply Ascii.eqb_eq in Hc as ->. rewrite amp_lt. cbn [cut Ascii.eqb Bool.eqb].
      destruct (cut "." (inHTMLData k)) as [b1 o1], (cut "." k) as [b2 o2].
      exact IH.
    - cbn [cut]. destruct (Ascii.eqb c "."); [done|].
      destruct (cut "." (inHTMLData k)) as [b1 o1], (cut "." k) as [b2 o2].
      exact IH. }
  unfold prohibited. specialize (Hdot k).
  destruct k as [|c k]; [done|]. cbn [inHTMLData] in *.
  destruct (Ascii.eqb c "<") eqn:Hc.
  - apply Ascii.eqb_eq in Hc as ->. rewrite amp_lt in *.
    cbn [drop_prefix Ascii.eqb Bool.eqb] in *.
    destruct (snd (cut "." _)), (snd (cut "." _)); done.
  - cbn [drop_prefix] in *. destruct (Ascii.eqb "$" c);
      destruct (snd (cut "." _)), (snd (cut "." _)); done.
Qed.

Lemma operator_free_sanitize v : operator_free (sanitize v) = true.
Proof.
  induction v as [| | | | |items IH|fs IH] using Value_induction; try done.
  - cbn [sanitize operator_free].
    induction IH as [|x items Hx _ IHitems]; [done|].
    cbn. by rewrite Hx.
  - cbn [sanitize operator_free].
    induction IH as [|[k x] fs Hx _ IHfs]; [done|].
    destruct (prohibited k) eqn:Hk; [exact IHfs|].
    cbn in Hx. by rewrite Hk, Hx.
Qed.

Lemma operator_free_jsonify v :
  operator_free v = true -> operator_free (jsonify v) = true.
Proof.
  induction v as [| | | | |items IH|fs IH] using Value_induction; try done.
  - cbn [jsonify operator_free].
    induction IH as [|x items Hx _ IHitems]; [done|].
    cbn. intros [H1 H2]%andb_prop. rewrite (IHitems H2), andb_true_r.
    destruct x; try done; by apply Hx.
  - cbn [jsonify operator_free].
    induction IH as [|[k x] fs Hx _ IHfs]; [done|].
    intros [[Hk H1]%andb_prop H2]%andb_prop. cbn in Hx.
    destruct x; try (by apply IHfs); rewrite Hk, (IHfs H2), andb_true_r;
      try done; by apply Hx.
Qed.

Lemma operator_free_object fs :
  operator_free (VObj fs)
  = forallb (fun kv => negb (prohibited (fst kv)) && operator_free (snd kv)) fs.
Proof.
  cbn [operator_free]. induction fs as [|[k x] fs IH]; [done|].
  cbn [forallb fst snd]. by rewrite IH.
Qed.

Lemma markup_free_object fs :
  markup_free (VObj fs)
  = forallb (fun kv => no_markup (fst kv) && markup_free (snd kv)) fs.
Proof.
  cbn [markup_free]. induction fs as [|[k x] fs IH]; [done|].
  cbn [forallb fst snd]. by rewrite IH.
Qed.

(** What holds of every member holds of every property of the object
    parsed. *)
Lemma forallb_assign (p : string * Value -> bool) k v fs :
  p (k, v) = true -> forallb p fs = true -> forallb p (assign k v fs) = true.
Proof.
  intros Hkv. induction fs as [|[k' x] fs IH]; cbn [assign forallb].
  - by rewrite Hkv.
  - intros [Hx Hfs]%andb_prop.
    destruct (String.eqb_spec k k') as [<-|Hne]; cbn [forallb].
    + by rewrite Hkv, Hfs.
    + by rewrite Hx, IH.
Qed.

Lemma forallb_members (p : string * Value -> bool) fs :
  forallb p fs = true -> forallb p (members fs) = true.
Proof.
  unfold members.
  assert (H : forall acc, forallb p acc = true -> forallb p fs = true ->
              forallb p (fold_left (fun o kv => assign (fst kv) (snd kv) o) fs acc)
              = true).
  { induction fs as [|[k v] fs IH]; intros acc Hacc; cbn [fold_left forallb fst snd];
      [done|].
    intros [Hkv Hfs]%andb_prop. apply IH; [|done]. by apply forallb_assign. }
  by apply H.
Qed.

Lemma operator_free_escape v :
  operator_free v = true -> operator_free (escape v) = true.
Proof.
  induction v as [| | | | |items IH|fs IH] using Value_induction; try done.
  - cbn [escape operator_free].
    induction IH as [|x items Hx _ IHitems]; [done|].
    cbn. intros [H1 H2]%andb_prop. by rewrite (Hx H1), (IHitems H2).
  - rewrite escape_object, !operator_free_object. intros H.
    apply forallb_members.
    induction IH as [|[k x] fs Hx _ IHfs]; [done|].
    cbn [map forallb fst snd] in *.
    apply andb_prop in H as [[Hk H1]%andb_prop H2].
    by rewrite prohibited_inHTMLData, Hk, (Hx H1), (IHfs H2).
Qed.

Lemma operator_free_clean v :
  operator_free v = true -> operator_free (clean v) = true.
Proof.
  intros H. destruct v; try done; unfold clean;
    by apply operator_free_escape, operator_free_jsonify.
Qed.

Lemma operator_free_last items :
  forallb operator_free items = true -> operator_free (last_item items) = true.
Proof.
  unfold last_item. induction items as [|x [|y items] IH]; [done| |].
  - cbn. by rewrite andb_true_r.
  - intros [_ H]%andb_prop. exact (IH H).
Qed.

Lemma operator_free_put_aside fs :
  operator_free (VObj fs) = true ->
  operator_free (VObj (fst (put_aside fs))) = true.
Proof.
  cbn [operator_free].
  induction fs as [|[k x] fs IH]; [done|].
  intros [[Hk Hx]%andb_prop Hfs]%andb_prop. specialize (IH Hfs).
  destruct x; cbn [put_aside]; destruct (put_aside fs) as [kept aside];
    cbn [fst] in *; rewrite Hk, IH, ?andb_true_r; try done.
  cbn. by apply operator_free_last.
Qed.

Lemma body_unpolluted r :
  body (unpolluted r)
  = match body r, has_media is_urlencoded r with
    | VObj fs, true => VObj (fst (put_aside fs))
    | b, _ => b
    end.
Proof.
  unfold unpolluted, has_media.
  destruct (query r); cbn [body with_query incoming];
    destruct (body r) eqn:Hb;
    destruct (entity (incoming r)) as [e|];
    repeat case_match; cbn [body with_body with_query]; by rewrite ?Hb.
Qed.

(** X10: whatever the request, the query and the body a route handler
    receives hold no key, at any depth, that starts with a dollar sign or
    contains a dot: the sanitiser deletes them and nothing behind it in the
    pipeline brings one back. *)
Theorem routes_see_no_operator_keys msg :
  operator_free (query (prepared msg)) = true
  /\ operator_free (body (prepared msg)) = true.
Proof.
  unfold prepared. rewrite query_unpolluted, body_unpolluted.
  set (r := received msg).
  assert (Hq : operator_free (query (cleaned (sanitized r))) = true)
    by apply operator_free_clean, operator_free_sanitize.
  assert (Hb : operator_free (body (cleaned (sanitized r))) = true)
    by apply operator_free_clean, operator_free_sanitize.
  split.
  - destruct (query (cleaned (sanitized r))); try done.
    by apply operator_free_put_aside.
  - destruct (body (cleaned (sanitized r))); try done.
    destruct (has_media _ _); [|done]. by apply operator_free_put_aside.
Qed.

Lemma no_markup_inHTMLData s : no_markup (inHTMLData s) = true.
Proof.
  induction s as [|c s IH]; [done|]. cbn [inHTMLData].
  destruct (Ascii.eqb c "<") eqn:Hc.
  - rewrite amp_lt. cbn. exact IH.
  - cbn. by rewrite Hc.
Qed.

Lemma markup_free_escape v : markup_free (escape v) = true.
Proof.
  induction v as [| | | |s|items IH|fs IH] using Value_induction; try done.
  - apply no_markup_inHTMLData.
  - cbn [escape markup_free].
    induction IH as [|x items Hx _ IHitems]; [done|].
    cbn. by rewrite Hx.
  - rewrite escape_object, markup_free_object. apply forallb_members.
    induction IH as [|[k x] fs Hx _ IHfs]; [done|].
    cbn [map forallb fst snd] in *. by rewrite no_markup_inHTMLData, Hx, IHfs.
Qed.

Lemma markup_free_last items :
  forallb markup_free items = true -> markup_free (last_item items) = true.
Proof.
  unfold last_item. induction items as [|x [|y items] IH]; [done| |].
  - cbn. by rewrite andb_true_r.
  - intros [_ H]%andb_prop. exact (IH H).
Qed.

Lemma markup_free_put_aside fs :
  markup_free (VObj fs) = true ->
  markup_free (VObj (fst (put_aside fs))) = true.
Proof.
  cbn [markup_free].
  induction fs as [|[k x] fs IH]; [done|].
  intros [[Hk Hx]%andb_prop Hfs]%andb_prop. specialize (IH Hfs).
  destruct x; cbn [put_aside]; destruct (put_aside fs) as [kept aside];
    cbn [fst] in *; rewrite Hk, IH, ?andb_true_r; try done.
  cbn. by apply markup_free_last.
Qed.

(** X11: whatever the request, no string of the query a route handler
    receives, parameter name or value, contains a [<]; the same holds for
    the body whenever the body parsers left an object or an array. *)
Theorem routes_see_no_markup msg :
  markup_free (query (prepared msg)) = true
  /\ match body (received msg) with
     | VObj _ | VArr _ => markup_free (body (prepared msg)) = true
     | _ => True
     end.
Proof.
  unfold prepared. rewrite query_unpolluted, body_unpolluted.
  set (r := received msg).
  assert (Hobj : forall v,
             match v with
             | VObj _ | VArr _ => markup_free (clean (sanitize v)) = true
             | _ => True
             end).
  { intros [| | | | |items|fs]; try done; apply markup_free_escape. }
  split.
  - assert (Hq : markup_free (query (cleaned (sanitized r))) = true).
    { assert (Hr : exists fs, query r = VObj fs).
      { assert (Hq0 : query r = query (request_of msg))
          by (unfold r, received; by repeat case_match).
        rewrite Hq0. cbn [query request_of].
        destruct (querystring (url msg)); by eexists. }
      destruct Hr as [fs Hr].
      change (query (cleaned (sanitized r))) with (clean (sanitize (query r))).
      rewrite Hr. exact (Hobj (VObj fs)). }
    destruct (query (cleaned (sanitized r))); try done.
    by apply markup_free_put_aside.
  - specialize (Hobj (body r)).
    change (body (cleaned (sanitized r))) with (clean (sanitize (body r))).
    destruct (body r); try done;
      (destruct (clean (sanitize _)); try done;
       destruct (has_media _ _); [|done]; by apply markup_free_put_aside).
Qed.

(** ** Worked requests, continued *)

Lemma routes_run_connected_witness :
  existsb enters_route
    (since cold (snd (app clinic (request GET "/api/patients/42") cold))) = true
  /\ warm (snd (app clinic (request GET "/api/patients/42") cold)) = true.
Proof.
  assert (H : existsb enters_route
                (since cold (snd (app clinic (request GET "/api/patients/42") cold)))
              = true) by (by vm_compute).
  split; [exact H|].
  exact (routes_run_connected clinic (request GET "/api/patients/42") cold H).
Defined.

Lemma warm_process_never_reconnects_witness :
  let msgs := [request GET "/api/patients"; request OPTIONS "/api/beds";
               garbled; request GET "/api/health"] in
  warm (serve clinic msgs warmed) = true
  /\ cachedDb (serve clinic msgs warmed) = cachedDb warmed
  /\ connectCalls (serve clinic msgs warmed) = connectCalls warmed.
Proof.
  intros msgs. apply (warm_process_never_reconnects clinic msgs warmed).
  reflexivity.
Defined.

(** Five requests, the connection dropping after the third. *)
Lemma reachable_store_connects_once_witness :
  let hs := [Arrives (request OPTIONS "/api/beds"); Arrives garbled;
             Arrives (request GET "/api/patients"); ConnectionTurns 0;
             Arrives (request GET "/api/health");
             Arrives (request POST "/api/unknown")] in
  (connectCalls (live clinic hs cold) <= connectCalls cold + 1 + 1)%nat.
Proof.
  intros hs. apply (reachable_store_connects_once clinic hs cold).
  intros n. eexists. reflexivity.
Defined.

(** The bound is met: the request behind the drop connects again, although
    the store has accepted every attempt. *)
Lemma dropped_connection_is_made_again :
  let hs := [Arrives (request GET "/api/patients"); ConnectionTurns 0;
             Arrives (request GET "/api/health")] in
  connectCalls (live clinic hs cold) = 2%nat
  /\ cachedDb (live clinic hs cold) = Some {| session := 1 |}
  /\ connectCalls (serve clinic [request GET "/api/patients";
                                 request GET "/api/health"] cold) = 1%nat.
Proof. vm_compute. repeat split. Qed.

Lemma refused_entity_goes_to_error_handler_witness :
  exists e req,
    app clinic garbled cold
    = (errorHandler clinic e req,
       entered [Cors; Helmet; JsonParser; ErrorSink] cold)
    /\ status e = Some 400
    /\ incoming req = garbled
    /\ connectCalls (snd (app clinic garbled cold)) = connectCalls cold
    /\ existsb enters_route (since cold (snd (app clinic garbled cold))) = false.
Proof.
  apply (refused_entity_goes_to_error_handler clinic garbled cold
           {| mediaType := ApplicationJson; contentLength := 9;
              decoding := Malformed "Unexpected end of JSON input" |}).
  - discriminate.
  - reflexivity.
  - reflexivity.
  - reflexivity.
  - right. eexists. reflexivity.
Defined.

Lemma undecodable_path_goes_to_error_handler_witness :
  decodes "/api/patients/%zz" = false
  /\ exists e,
       app clinic (request GET "/api/patients/%zz") cold
       = (errorHandler clinic e (request_of (request GET "/api/patients/%zz")),
          entered [Cors; ErrorSink] cold)
       /\ status e = Some 400
       /\ connectCalls (snd (app clinic (request GET "/api/patients/%zz") cold))
          = connectCalls cold
       /\ existsb enters_route
            (since cold (snd (app clinic (request GET "/api/patients/%zz") cold)))
          = false.
Proof.
  split; [reflexivity|].
  apply (undecodable_path_goes_to_error_handler clinic
           (request GET "/api/patients/%zz") cold); (reflexivity || discriminate).
Defined.

Lemma stale_handle_is_replaced_witness :
  exists w1,
    connectToDatabase clinic dropped = (Ok {| session := 0 |}, w1)
    /\ cachedDb w1 = Some {| session := 0 |}
    /\ readyState w1 = 1
    /\ connectCalls w1 = S (connectCalls dropped).
Proof.
  apply (stale_handle_is_replaced clinic dropped {| session := 0 |}
           {| session := 0 |}).
  - reflexivity.
  - discriminate.
  - reflexivity.
Defined.

Lemma mount_paths_do_not_overlap_witness :
  mounted_at "/api/theatre-procedures" "/api/Theatre-Procedures/12" = true
  /\ "/api/theatre-procedures" = "/api/theatre-procedures".
Proof.
  split; [reflexivity|].
  apply (mount_paths_do_not_overlap "/api/theatre-procedures"
           "/api/theatre-procedures" "/api/Theatre-Procedures/12");
    try reflexivity; cbn; tauto.
Defined.

Lemma mounted_request_is_delegated_witness :
  app staffed (request GET "/api/patients/42?status=A&status=B") cold
  = ({| statusCode := 200;
        responseBody := JsonBody (VObj [("status", VStr "success")]) |},
     emit (Enter (RouteGroup "/api/patients"))
       (connected_world staffed {| session := 0 |} (at_gate cold))).
Proof.
  rewrite (mounted_request_is_delegated staffed
             (request GET "/api/patients/42?status=A&status=B") cold
             {| session := 0 |}
             (connected_world staffed {| session := 0 |} (at_gate cold))
             "/api/patients").
  - reflexivity.
  - discriminate.
  - reflexivity.
  - reflexivity.
  - reflexivity.
  - cbn; tauto.
  - reflexivity.
Defined.

Lemma outside_api_gets_default_404_witness :
  under "/api" "/api" = false
  /\ app clinic (request GET "/api") cold
     = ({| statusCode := 404; responseBody := DefaultPage |},
        connected_world clinic {| session := 0 |} (at_gate cold)).
Proof.
  split; [reflexivity|].
  apply (outside_api_gets_default_404 clinic (request GET "/api") cold
           {| session := 0 |}); (reflexivity || discriminate).
Defined.

(** A target in absolute form is routed on its path: the health route
    answers it, and the 404 envelope carries the target as received. *)
Lemma absolute_form_is_routed_on_its_path :
  (exists u,
      parseurl "http://example.com/api/health" = Some u
      /\ pathname u = "/api/health"
      /\ statusCode (fst (app clinic {| method := GET; url := u; entity := None |}
                              cold)) = 200)
  /\ (exists u,
         parseurl "http://example.com/api/unknown?page=2" = Some u
         /\ fst (app clinic {| method := GET; url := u; entity := None |} cold)
            = {| statusCode := 404;
                 responseBody :=
                   JsonBody (VObj [("status", VStr "error");
                                   ("message",
                                    VStr "API route http://example.com/api/unknown?page=2 not found")]) |}).
Proof.
  split.
  - exists {| href := "http://example.com/api/health";
              pathname := "/api/health"; querystring := None |}.
    vm_compute. repeat split.
  - exists {| href := "http://example.com/api/unknown?page=2";
              pathname := "/api/unknown"; querystring := Some "page=2" |}.
    vm_compute. repeat split.
Qed.
